(** * usempl_streaks: streaks of consecutive positive monthly employment gains

    A shallow embedding of [usempl_plots/usempl_streaks.py]: the tail of
    [get_usempl_data] (drop missing rows, first difference), the
    segmentation loop of [usempl_streaks], the global extrema and the
    rendering loop that picks colours and legend entries.

    Numbers.  pandas holds the levels and the gains as floats.  They are
    modelled as exact integers in [Z], which is what the published PAYEMS
    counts (thousands of persons) are: on such values float sums and
    differences are exact.  The rounding of float arithmetic, which the
    interpolated months of 1919-1938 would bring in, is not modelled.  A
    missing value (NaN) is [None].  The one quotient, the average gain, is
    an exact rational in lowest terms.

    Objects.  A streak's table is never written to after it has joined
    [strk_df_lst] (the next streak starts from a new DataFrame), so the
    tables are modelled as values. *)

From Stdlib Require Import String Ascii ZArith QArith Qcanon Bool List Lia.
Import ListNotations.
Local Open Scope Z_scope.

(** ** Python outcomes *)

Inductive PyError : Type :=
| KeyError
| ValueError
| IndexError
| UnboundLocalError.

Inductive result (A : Type) : Type :=
| Ok (a : A)
| Raise (e : PyError).

Arguments Ok {A} a.
Arguments Raise {A} e.

Definition bind {A B : Type} (c : result A) (k : A -> result B) : result B :=
  match c with
  | Ok a => k a
  | Raise e => Raise e
  end.

Notation "x <- c ;; k" := (bind c (fun x => k))
  (at level 61, c at next level, right associativity).

(** Reading a local variable that no statement has assigned yet. *)
Definition read_var {A : Type} (v : option A) : result A :=
  match v with
  | Some a => Ok a
  | None => Raise UnboundLocalError
  end.

(** ** Dates and [strftime("%Y-%m")] *)

Record date : Type := mkDate { year : nat; month : nat; day : nat }.

Definition digit (n : nat) : ascii := ascii_of_nat (48 + n mod 10).

Definition pad2 (n : nat) : string :=
  String (digit (n / 10)) (String (digit n) EmptyString).

Definition pad4 (n : nat) : string :=
  String (digit (n / 1000)) (String (digit (n / 100)) (pad2 n)).

Definition strftime_Ym (d : date) : string :=
  (pad4 (year d) ++ "-" ++ pad2 (month d))%string.

(** ** The employment table [usempl_df] *)

Record Row : Type := mkRow {
  Date : date;
  PAYEMS : Z;
  empl_mth_gain : option Z
}.

(** [usempl_df.dropna()]: rows whose level did not parse are dropped. *)
Fixpoint dropna (raw : list (date * option Z)) : list (date * Z) :=
  match raw with
  | [] => []
  | (d, Some v) :: t => (d, v) :: dropna t
  | (_, None) :: t => dropna t
  end.

(** [usempl_df["PAYEMS"].diff()]: NaN on the first row, then the first
    difference of the level. *)
Fixpoint diff_from (prev : Z) (l : list (date * Z)) : list Row :=
  match l with
  | [] => []
  | (d, v) :: t => mkRow d v (Some (v - prev)) :: diff_from v t
  end.

Definition with_gain (l : list (date * Z)) : list Row :=
  match l with
  | [] => []
  | (d, v) :: t => mkRow d v None :: diff_from v t
  end.

(** The last lines of [get_usempl_data], applied to the table as read or
    downloaded. *)
Definition get_usempl_data (raw : list (date * option Z)) : list Row :=
  with_gain (dropna raw).

(** [usempl_df.loc[k, ...]] on the default integer index: KeyError when the
    label is not a row. *)
Definition loc (usempl_df : list Row) (k : Z) : result Row :=
  if k <? 0 then Raise KeyError
  else match nth_error usempl_df (Z.to_nat k) with
       | Some r => Ok r
       | None => Raise KeyError
       end.

(** Float comparisons: every comparison with NaN is false. *)
Definition gt0 (g : option Z) : bool :=
  match g with Some x => 0 <? x | None => false end.

Definition le0 (g : option Z) : bool :=
  match g with Some x => x <=? 0 | None => false end.

(** ** One streak's table [strk_df] *)

Record StrkRow : Type := mkStrkRow {
  col_Date : option date;
  col_PAYEMS : option Z;
  col_empl_mth_gain : option Z;
  col_strk_mths : option Z;
  col_strk_cum : option Z;
  col_strk_mths_tot : option Z;
  col_strk_avg_emp_gain : option Q;
  col_strk_cum_tot : option Z
}.

(** Rows in insertion order, each under its index label. *)
Definition StrkDf : Type := list (Z * StrkRow).

Definition nan_row : StrkRow :=
  mkStrkRow None None None None None None None None.

Definition set_obs (r : Row) (s : StrkRow) : StrkRow :=
  mkStrkRow (Some (Date r)) (Some (PAYEMS r)) (empl_mth_gain r)
    (col_strk_mths s) (col_strk_cum s) (col_strk_mths_tot s)
    (col_strk_avg_emp_gain s) (col_strk_cum_tot s).

Definition set_strk_mths (v : option Z) (s : StrkRow) : StrkRow :=
  mkStrkRow (col_Date s) (col_PAYEMS s) (col_empl_mth_gain s)
    v (col_strk_cum s) (col_strk_mths_tot s)
    (col_strk_avg_emp_gain s) (col_strk_cum_tot s).

Definition set_strk_cum (v : option Z) (s : StrkRow) : StrkRow :=
  mkStrkRow (col_Date s) (col_PAYEMS s) (col_empl_mth_gain s)
    (col_strk_mths s) v (col_strk_mths_tot s)
    (col_strk_avg_emp_gain s) (col_strk_cum_tot s).

Definition set_strk_mths_tot (v : option Z) (s : StrkRow) : StrkRow :=
  mkStrkRow (col_Date s) (col_PAYEMS s) (col_empl_mth_gain s)
    (col_strk_mths s) (col_strk_cum s) v
    (col_strk_avg_emp_gain s) (col_strk_cum_tot s).

Definition set_strk_avg_emp_gain (v : option Q) (s : StrkRow) : StrkRow :=
  mkStrkRow (col_Date s) (col_PAYEMS s) (col_empl_mth_gain s)
    (col_strk_mths s) (col_strk_cum s) (col_strk_mths_tot s)
    v (col_strk_cum_tot s).

Definition set_strk_cum_tot (v : option Z) (s : StrkRow) : StrkRow :=
  mkStrkRow (col_Date s) (col_PAYEMS s) (col_empl_mth_gain s)
    (col_strk_mths s) (col_strk_cum s) (col_strk_mths_tot s)
    (col_strk_avg_emp_gain s) v.

Definition has_label (k : Z) (df : StrkDf) : bool :=
  existsb (fun p => fst p =? k) df.

(** [strk_df.loc[k, cols] = ...]: the cells of the row labelled [k] are
    overwritten; when no row has that label a new row is appended, NaN in
    its other columns. *)
Definition loc_set (k : Z) (f : StrkRow -> StrkRow) (df : StrkDf) : StrkDf :=
  if has_label k df
  then map (fun p => if fst p =? k then (fst p, f (snd p)) else p) df
  else df ++ [(k, f nan_row)].

(** [strk_df[col] = scalar]: the whole column is set. *)
Definition set_column (f : StrkRow -> StrkRow) (df : StrkDf) : StrkDf :=
  map (fun p => (fst p, f (snd p))) df.

Definition column {A : Type} (c : StrkRow -> option A) (df : StrkDf)
  : list (option A) :=
  map (fun p => c (snd p)) df.

(** [Series.min()] and [Series.max()]: NaN cells are skipped, and the answer
    is NaN when nothing is left. *)
Definition nan_min (a b : option Z) : option Z :=
  match a, b with
  | Some x, Some y => Some (Z.min x y)
  | Some x, None => Some x
  | None, _ => b
  end.

Definition nan_max (a b : option Z) : option Z :=
  match a, b with
  | Some x, Some y => Some (Z.max x y)
  | Some x, None => Some x
  | None, _ => b
  end.

Definition series_min (l : list (option Z)) : option Z :=
  fold_left nan_min l None.

Definition series_max (l : list (option Z)) : option Z :=
  fold_left nan_max l None.

(** [strk_cum / strk_mths]: a float quotient, not finite on a zero
    divisor. *)
Definition fdiv (a b : Z) : option Q :=
  if b =? 0 then None else Some (Qred (inject_Z a / inject_Z b)).

(** ** Local variables of the segmentation block *)

(** The nine lists that grow by one entry per finished streak. *)
Record Lists : Type := mkLists {
  strk_df_lst : list StrkDf;
  strk_cds_lst : list StrkDf;
  strk_label_lst : list string;
  min_gain_val_lst : list (option Z);
  max_gain_val_lst : list (option Z);
  min_cum_val_lst : list (option Z);
  max_cum_val_lst : list (option Z);
  min_mth_val_lst : list (option Z);
  max_mth_val_lst : list (option Z)
}.

Record Locals : Type := mkLocals {
  lists : Lists;
  strk_num : Z;
  strk_mths : Z;
  strk_cum : Z;
  j : option Z;
  strk_df : option StrkDf;
  strk_start_mth_str : option string
}.

Definition no_lists : Lists := mkLists [] [] [] [] [] [] [] [] [].

(** Lines 232-243.  [j], [strk_df] and [strk_start_mth_str] are not
    assigned there: they keep what they held, which is nothing on a first
    call. *)
Definition init_locals (prior : Locals) : Locals :=
  mkLocals no_lists 0 0 0
    (j prior) (strk_df prior) (strk_start_mth_str prior).

Definition fresh_locals : Locals :=
  mkLocals no_lists 0 0 0 None None None.

(** Lines 247-261: a streak is opened at row [i]. *)
Definition open_streak (i : Z) (r : Row) (st : Locals) : Locals :=
  mkLocals (lists st) (strk_num st + 1) (strk_mths st) (strk_cum st)
    (Some i) (Some []) (Some (strftime_Ym (Date r))).

(** The counters and the table stored back after an update. *)
Definition set_running (mths cum : Z) (df : StrkDf) (st : Locals) : Locals :=
  mkLocals (lists st) (strk_num st) mths cum
    (j st) (Some df) (strk_start_mth_str st).

(** Lines 273-275 and 289-291: the three total columns. *)
Definition set_totals (mths cum : Z) (df : StrkDf) : StrkDf :=
  set_column (set_strk_cum_tot (Some cum))
    (set_column (set_strk_avg_emp_gain (fdiv cum mths))
       (set_column (set_strk_mths_tot (Some mths)) df)).

(** Lines 272, 276-283 and 296-304: the streak joins the collection.
    [ColumnDataSource(strk_df)] keeps a copy of the table's columns. *)
Definition append_streak (label : string) (df : StrkDf) (l : Lists) : Lists :=
  mkLists (strk_df_lst l ++ [df]) (strk_cds_lst l ++ [df])
    (strk_label_lst l ++ [label])
    (min_gain_val_lst l ++ [series_min (column col_empl_mth_gain df)])
    (max_gain_val_lst l ++ [series_max (column col_empl_mth_gain df)])
    (min_cum_val_lst l ++ [series_min (column col_strk_cum df)])
    (max_cum_val_lst l ++ [series_max (column col_strk_cum df)])
    (min_mth_val_lst l ++ [series_min (column col_strk_mths df)])
    (max_mth_val_lst l ++ [series_max (column col_strk_mths df)]).

Definition with_lists (l : Lists) (st : Locals) : Locals :=
  mkLocals l (strk_num st) (strk_mths st) (strk_cum st)
    (j st) (strk_df st) (strk_start_mth_str st).

Definition range_label (start_str end_str : string) : string :=
  (start_str ++ " to " ++ end_str)%string.

(** Lines 246-283: the row has a positive gain and joins the streak. *)
Definition member_branch (usempl_df : list Row) (i : Z) (r : Row)
           (st : Locals) : result Locals :=
  let st1 := if strk_mths st =? 0 then open_streak i r st else st in
  jv <- read_var (j st1) ;;
  df0 <- read_var (strk_df st1) ;;
  let df1 := loc_set (i - jv) (set_obs r) df0 in
  let mths := strk_mths st1 + 1 in
  let df2 := loc_set (i - jv) (set_strk_mths (Some mths)) df1 in
  (* the gain compared greater than 0, so it is a number *)
  let cum := match empl_mth_gain r with
             | Some g => strk_cum st1 + g
             | None => strk_cum st1
             end in
  let df3 := loc_set (i - jv) (set_strk_cum (Some cum)) df2 in
  let st2 := set_running mths cum df3 st1 in
  if i =? Z.of_nat (length usempl_df) - 1 then
    r_end <- loc usempl_df i ;;
    start_str <- read_var (strk_start_mth_str st2) ;;
    let strk_label := range_label start_str (strftime_Ym (Date r_end)) in
    let dff := set_totals mths cum df3 in
    Ok (with_lists (append_streak strk_label dff (lists st2))
          (set_running mths cum dff st2))
  else Ok st2.

(** Lines 289-304: the streak that ended on the row before is closed. *)
Definition close_branch (usempl_df : list Row) (i : Z) (st : Locals)
  : result Locals :=
  df0 <- read_var (strk_df st) ;;
  let dff := set_totals (strk_mths st) (strk_cum st) df0 in
  r_end <- loc usempl_df (i - 1) ;;
  start_str <- read_var (strk_start_mth_str st) ;;
  let strk_label := range_label start_str (strftime_Ym (Date r_end)) in
  Ok (with_lists (append_streak strk_label dff (lists st))
        (set_running 0 0 dff st)).

(** Lines 245-304: the body of [for i in range(usempl_df.shape[0])].  The
    [elif] tests the gain of row [i - 1] before it tests [i > 0]. *)
Definition loop_body (usempl_df : list Row) (i : Z) (st : Locals)
  : result Locals :=
  r <- loc usempl_df i ;;
  if gt0 (empl_mth_gain r) then member_branch usempl_df i r st
  else if le0 (empl_mth_gain r) then
    r_prev <- loc usempl_df (i - 1) ;;
    if gt0 (empl_mth_gain r_prev) && (0 <? i)
    then close_branch usempl_df i st
    else Ok st
  else Ok st.

(** The first [k] rounds of the loop, from a given state of the locals. *)
Definition run_loop (usempl_df : list Row) (k : nat) (st : Locals)
  : result Locals :=
  fold_left (fun acc i => s <- acc ;; loop_body usempl_df (Z.of_nat i) s)
    (seq 0 k) (Ok st).

(** Lines 232-304. *)
Definition segmentation (usempl_df : list Row) (prior : Locals)
  : result Locals :=
  run_loop usempl_df (length usempl_df) (init_locals prior).

(** ** Extrema and rendering (lines 306-420) *)

(** The builtins [min] and [max] on a list: ValueError when it is empty; the
    running answer is replaced only by an item that compares smaller
    (greater), which an item that is NaN never does. *)
Definition py_lt (a b : option Z) : bool :=
  match a, b with
  | Some x, Some y => x <? y
  | _, _ => false
  end.

Definition py_min (l : list (option Z)) : result (option Z) :=
  match l with
  | [] => Raise ValueError
  | x :: t => Ok (fold_left (fun m y => if py_lt y m then y else m) t x)
  end.

Definition py_max (l : list (option Z)) : result (option Z) :=
  match l with
  | [] => Raise ValueError
  | x :: t => Ok (fold_left (fun m y => if py_lt m y then y else m) t x)
  end.

(** [int(x)] of a float: ValueError on NaN. *)
Definition py_int (v : option Z) : result Z :=
  match v with
  | Some x => Ok x
  | None => Raise ValueError
  end.

(** [l[k]] on a list or tuple: a negative index counts from the end, and an
    index outside [-len, len) raises IndexError. *)
Definition py_index {A : Type} (l : list A) (k : Z) : result A :=
  let n := Z.of_nat (length l) in
  let k' := if k <? 0 then k + n else k in
  if (k' <? 0) || (n <=? k') then Raise IndexError
  else match nth_error l (Z.to_nat k') with
       | Some a => Ok a
       | None => Raise IndexError
       end.

(** [bokeh.palettes.Viridis8]. *)
Definition Viridis8 : list string :=
  ["#440154"; "#46317E"; "#365A8C"; "#277E8E";
   "#1FA187"; "#49C16D"; "#9FDA3A"; "#FDE724"]%string.

(** What [fig.line] is given. *)
Record Line : Type := mkLine {
  source : StrkDf;
  color : string;
  line_width : Z
}.

Record RenderState : Type := mkRenderState {
  r_j : Z;
  fig_lst : list Line;
  label_items_lst : list (string * list Line)
}.

(** [x > c] on a float. *)
Definition fgt (x : option Z) (c : Z) : bool :=
  match x with Some v => c <? v | None => false end.

(** Lines 370-393: the body of [for i in range(strk_num)]. *)
Definition render_body (l : Lists) (i : Z) (rs : RenderState)
  : result RenderState :=
  max_cum <- py_index (max_cum_val_lst l) i ;;
  highlighted <-
    (if fgt max_cum 10000 then Ok true
     else max_mth <- py_index (max_mth_val_lst l) i ;; Ok (fgt max_mth 40)) ;;
  if (highlighted : bool) then
    let j' := r_j rs + 1 in
    cds <- py_index (strk_cds_lst l) i ;;
    c <- py_index Viridis8 (7 - j') ;;
    let li := mkLine cds c 4 in
    label <- py_index (strk_label_lst l) i ;;
    Ok (mkRenderState j' (fig_lst rs ++ [li])
          (label_items_lst rs ++ [(label, [li])]))
  else
    cds <- py_index (strk_cds_lst l) i ;;
    let li := mkLine cds "orange" 2 in
    Ok (mkRenderState (r_j rs) (fig_lst rs ++ [li]) (label_items_lst rs)).

(** Lines 366-393. *)
Definition render_loop (l : Lists) (strk_num : Z) : result RenderState :=
  fold_left (fun acc i => rs <- acc ;; render_body l (Z.of_nat i) rs)
    (seq 0 (Z.to_nat strk_num)) (Ok (mkRenderState (-1) [] [])).

(** The chart: its title, the extrema that scale the axes, the lines and
    the legend (whose click policy is "mute").  The axis ranges, which pad
    the extrema by five percent in floating point, are left out. *)
Record Figure : Type := mkFigure {
  fig_title : string;
  min_cum_val : option Z;
  max_cum_val : option Z;
  min_mth_val : option Z;
  max_mth_val : option Z;
  datarange_mth_vals : Z;
  renderers : list Line;
  legend_items : list (string * list Line);
  click_policy : string
}.

(** [usempl_streaks], from the table that [get_usempl_data] read. *)
Definition usempl_streaks (raw : list (date * option Z)) : result Figure :=
  let usempl_df := get_usempl_data raw in
  (* line 225: the start month is printed *)
  _ <- loc usempl_df 0 ;;
  st <- segmentation usempl_df fresh_locals ;;
  (* line 311 *)
  r0 <- loc usempl_df 0 ;;
  let title := ("Consecutive US monthly employment gain streaks since "
                  ++ pad4 (year (Date r0)))%string in
  (* lines 329-335 *)
  min_cum <- py_min (min_cum_val_lst (lists st)) ;;
  max_cum <- py_max (max_cum_val_lst (lists st)) ;;
  min_mth <- py_min (min_mth_val_lst (lists st)) ;;
  max_mth <- py_max (max_mth_val_lst (lists st)) ;;
  datarange <- py_int (match min_mth, max_mth with
                       | Some a, Some b => Some (a + b)
                       | _, _ => None
                       end) ;;
  rs <- render_loop (lists st) (strk_num st) ;;
  (* lines 419-420 and 511 *)
  Ok (mkFigure title min_cum max_cum min_mth max_mth datarange
        (fig_lst rs) (label_items_lst rs) "mute").

(** ** The segmentation as the specification words it

    A single forward pass that keeps the streaks already closed and the
    open one: a month of positive gain joins the open streak, any other
    month closes it, and the end of the series closes what is still
    open. *)

Definition positive (r : Row) : bool := gt0 (empl_mth_gain r).

Definition gain_of (r : Row) : Z :=
  match empl_mth_gain r with Some g => g | None => 0 end.

Definition gain_sum (run : list Row) : Z :=
  fold_right (fun r a => gain_of r + a) 0 run.

Definition seg_step (acc : list (list Row) * list Row) (r : Row)
  : list (list Row) * list Row :=
  if positive r then (fst acc, snd acc ++ [r])
  else match snd acc with
       | [] => acc
       | _ :: _ => (fst acc ++ [snd acc], [])
       end.

Definition seg (l : list Row) : list (list Row) * list Row :=
  fold_left seg_step l ([], []).

Definition close_open (acc : list (list Row) * list Row) : list (list Row) :=
  match snd acc with
  | [] => fst acc
  | _ :: _ => fst acc ++ [snd acc]
  end.

Definition spec_streaks (l : list Row) : list (list Row) :=
  close_open (seg l).

(** The table of a streak while it is open: the k-th member under label
    k - 1, with the running month count and the running sum. *)
Fixpoint running_rows (k c : Z) (run : list Row) : StrkDf :=
  match run with
  | [] => []
  | r :: t =>
      (k, mkStrkRow (Some (Date r)) (Some (PAYEMS r)) (empl_mth_gain r)
            (Some (k + 1)) (Some (c + gain_of r)) None None None)
        :: running_rows (k + 1) (c + gain_of r) t
  end.

Definition running_df (run : list Row) : StrkDf := running_rows 0 0 run.

(** The table of a closed streak: length, exact quotient and sum in the
    three total columns. *)
Definition finalized_df (run : list Row) : StrkDf :=
  set_totals (Z.of_nat (length run)) (gain_sum run) (running_df run).

Definition start_str (run : list Row) : string :=
  match run with
  | [] => EmptyString
  | r :: _ => strftime_Ym (Date r)
  end.

Definition label_of (run : list Row) : string :=
  match run with
  | [] => EmptyString
  | r :: t => range_label (strftime_Ym (Date r)) (strftime_Ym (Date (last t r)))
  end.

Definition spec_lists (runs : list (list Row)) : Lists :=
  mkLists (map finalized_df runs) (map finalized_df runs)
    (map label_of runs)
    (map (fun run => series_min (column col_empl_mth_gain (finalized_df run))) runs)
    (map (fun run => series_max (column col_empl_mth_gain (finalized_df run))) runs)
    (map (fun run => series_min (column col_strk_cum (finalized_df run))) runs)
    (map (fun run => series_max (column col_strk_cum (finalized_df run))) runs)
    (map (fun run => series_min (column col_strk_mths (finalized_df run))) runs)
    (map (fun run => series_max (column col_strk_mths (finalized_df run))) runs).

(** A table as [get_usempl_data] returns it: the gain is missing on the
    first row and nowhere else. *)
Definition gain_annotated (df : list Row) : Prop :=
  forall k r, nth_error df k = Some r ->
              (empl_mth_gain r = None <-> k = 0%nat).

(** What the locals hold when the rows seen so far split into the closed
    runs [fst acc] and the open run [snd acc]; [fin] tells that the last
    row has been seen, which closes the open run as well. *)
Definition Holds (fin : bool) (k : nat) (acc : list (list Row) * list Row)
           (st : Locals) : Prop :=
  lists st = spec_lists (if fin then close_open acc else fst acc) /\
  strk_num st = Z.of_nat (length (close_open acc)) /\
  strk_mths st = Z.of_nat (length (snd acc)) /\
  strk_cum st = gain_sum (snd acc) /\
  (snd acc <> [] ->
   j st = Some (Z.of_nat k - Z.of_nat (length (snd acc))) /\
   strk_df st = Some (if fin then finalized_df (snd acc)
                      else running_df (snd acc)) /\
   strk_start_mth_str st = Some (start_str (snd acc))).

(** The invariant of the loop after [k] rounds. *)
Definition Inv (df : list Row) (k : nat) (st : Locals) : Prop :=
  Holds (k =? length df)%nat k (seg (firstn k df)) st.

(** Row [i] of the table of a closed streak. *)
Definition final_row (run : list Row) (i : nat) (r : Row) : Z * StrkRow :=
  (Z.of_nat i,
   mkStrkRow (Some (Date r)) (Some (PAYEMS r)) (empl_mth_gain r)
     (Some (Z.of_nat i + 1)) (Some (gain_sum (firstn (S i) run)))
     (Some (Z.of_nat (length run)))
     (fdiv (gain_sum run) (Z.of_nat (length run)))
     (Some (gain_sum run))).

(** ** Sample tables *)

Definition ym (y m : nat) : date := mkDate y m 1.

Definition ex1 : list (date * option Z) :=
  [(ym 2000 1, Some 100); (ym 2000 2, Some 105); (ym 2000 3, Some 108);
   (ym 2000 4, Some 107); (ym 2000 5, Some 109); (ym 2000 6, Some 111);
   (ym 2000 7, Some 113)].

(** ** Reading the collection *)

(** The observation a member row was copied from: its date, level and
    gain cells. *)
Definition obs_cells (r : Row) : option date * option Z * option Z :=
  (Some (Date r), Some (PAYEMS r), empl_mth_gain r).

Definition member_obs (sdf : StrkDf) : list (option date * option Z * option Z) :=
  map (fun p => (col_Date (snd p), col_PAYEMS (snd p),
                 col_empl_mth_gain (snd p))) sdf.

(** The members of all streaks, streak after streak. *)
Definition all_members (l : Lists) : list (option date * option Z * option Z) :=
  concat (map member_obs (strk_df_lst l)).

Definition member_date (m : option date * option Z * option Z) : option date :=
  fst (fst m).

Definition total (gs : list Z) : Z := fold_right Z.add 0 gs.

(** A closed streak's table carries, on every row, the count of its
    members, the sum of their gains and the quotient of the two. *)
Definition finalized_ok (sdf : StrkDf) : Prop :=
  exists gs : list Z,
    column col_empl_mth_gain sdf = map Some gs /\
    sdf <> [] /\
    Forall (fun p =>
              col_strk_mths_tot (snd p) = Some (Z.of_nat (length sdf)) /\
              col_strk_cum_tot (snd p) = Some (total gs) /\
              exists a, col_strk_avg_emp_gain (snd p) = Some a /\
                        (a == inject_Z (total gs)
                              / inject_Z (Z.of_nat (length sdf)))%Q) sdf /\
    (forall g, gs = [g] ->
               Forall (fun p => col_strk_avg_emp_gain (snd p)
                                = Some (inject_Z g)) sdf).

(** The running columns of a streak's table: the k-th member holds k and
    the sum of the first k gains, and the last member holds the totals. *)
Definition running_ok (sdf : StrkDf) : Prop :=
  exists gs : list Z,
    column col_empl_mth_gain sdf = map Some gs /\
    sdf <> [] /\
    (forall k p, nth_error sdf k = Some p ->
                 col_strk_mths (snd p) = Some (Z.of_nat k + 1) /\
                 col_strk_cum (snd p) = Some (total (firstn (S k) gs))) /\
    (forall p, nth_error sdf (length sdf - 1) = Some p ->
               col_strk_mths (snd p) = col_strk_mths_tot (snd p) /\
               col_strk_cum (snd p) = col_strk_cum_tot (snd p)).

(** Gains -1, -1, +1 after the baseline. *)
Definition ex2 : list (date * option Z) :=
  [(ym 2001 1, Some 100); (ym 2001 2, Some 99); (ym 2001 3, Some 98);
   (ym 2001 4, Some 99)].

(** Gains +1, +1, +1 after the baseline: the series ends in a streak. *)
Definition ex3 : list (date * option Z) :=
  [(ym 2002 1, Some 100); (ym 2002 2, Some 101); (ym 2002 3, Some 102);
   (ym 2002 4, Some 103)].

(** What a closed streak shows: its member gains and, row by row, the
    three total columns. *)
Definition streak_summary (sdf : StrkDf)
  : list (option Z) * list (option Z) * list (option Z) * list (option Q) :=
  (column col_empl_mth_gain sdf, column col_strk_mths_tot sdf,
   column col_strk_cum_tot sdf, column col_strk_avg_emp_gain sdf).

(** The row under the last label, [usempl_df.shape[0] - 1]. *)
Definition last_row (usempl_df : list Row) : option Row :=
  nth_error usempl_df (length usempl_df - 1).

(** The Streak Collection that a run of the block leaves: the nine lists
    and the number of streaks. *)
Definition collection (st : Locals) : Lists * Z := (lists st, strk_num st).

Definition on_result {A B : Type} (f : A -> B) (c : result A) : result B :=
  match c with
  | Ok a => Ok (f a)
  | Raise e => Raise e
  end.

(** A series of one observation: the baseline alone. *)
Definition ex_one : list (date * option Z) := [(ym 2003 1, Some 100)].

(** The least and the greatest number among cells. *)
Definition least (m : Z) (l : list (option Z)) : Prop :=
  In (Some m) l /\ forall x, In (Some x) l -> m <= x.

Definition greatest (m : Z) (l : list (option Z)) : Prop :=
  In (Some m) l /\ forall x, In (Some x) l -> x <= m.

(** The cells of one column over the rows of all streaks: the points of
    the chart. *)
Definition all_points (c : StrkRow -> option Z) (l : Lists)
  : list (option Z) :=
  concat (map (column c) (strk_df_lst l)).

(** The chart of the first sample. *)
Definition ex1_fig : Figure :=
  Eval vm_compute in
    match usempl_streaks ex1 with
    | Ok fig => fig
    | Raise _ => mkFigure EmptyString None None None None 0 [] [] EmptyString
    end.

(** ** Reading the chart *)

(** A streak as the rendering loop meets it under index [i]: its label,
    its column data and whether the test of line 370 holds for it. *)
Record Entry : Type := mkEntry {
  e_label : string;
  e_cds : StrkDf;
  e_highlighted : bool
}.

Definition highlighted (max_cum max_mth : option Z) : bool :=
  fgt max_cum 10000 || fgt max_mth 40.

Definition entries (l : Lists) : list Entry :=
  map (fun x => mkEntry (fst (fst x)) (snd (fst x))
                  (highlighted (fst (snd x)) (snd (snd x))))
      (combine (combine (strk_label_lst l) (strk_cds_lst l))
               (combine (max_cum_val_lst l) (max_mth_val_lst l))).

Definition count_highlighted (es : list Entry) : nat :=
  length (filter e_highlighted es).

(** [Viridis8[7 - k]] where the look-up succeeds. *)
Definition palette (k : nat) : string :=
  match py_index Viridis8 (7 - Z.of_nat k) with
  | Ok c => c
  | Raise _ => EmptyString
  end.

(** The line of a streak when [k] highlighted streaks came before it. *)
Definition line_of (e : Entry) (k : nat) : Line :=
  if e_highlighted e then mkLine (e_cds e) (palette k) 4
  else mkLine (e_cds e) "orange" 2.

Fixpoint spec_lines (k : nat) (es : list Entry) : list Line :=
  match es with
  | [] => []
  | e :: t => line_of e k :: spec_lines (if e_highlighted e then S k else k) t
  end.

Fixpoint spec_legend (k : nat) (es : list Entry)
  : list (string * list Line) :=
  match es with
  | [] => []
  | e :: t =>
      if e_highlighted e
      then (e_label e, [line_of e k]) :: spec_legend (S k) t
      else spec_legend k t
  end.

Definition entry_of (run : list Row) : Entry :=
  mkEntry (label_of run) (finalized_df run)
    (highlighted (series_max (column col_strk_cum (finalized_df run)))
                 (series_max (column col_strk_mths (finalized_df run)))).

(** The date range that a streak's table shows: the months of its first
    and of its last row. *)
Definition table_label (sdf : StrkDf) : option string :=
  match nth_error sdf 0, nth_error sdf (length sdf - 1) with
  | Some p, Some q =>
      match col_Date (snd p), col_Date (snd q) with
      | Some d1, Some d2 => Some (range_label (strftime_Ym d1) (strftime_Ym d2))
      | _, _ => None
      end
  | _, _ => None
  end.

(** How the chart shows a streak: its column data as the source, and
    either a colour of the palette at width 4 or orange at width 2. *)
Definition drawn_as (e : Entry) (line : Line) : Prop :=
  source line = e_cds e /\
  if e_highlighted e
  then In (color line) Viridis8 /\ line_width line = 4
  else color line = "orange"%string /\ line_width line = 2.

(** The test of line 370 read on the streak's table: the greatest running
    cumulative gain exceeds 10,000 or the number of rows exceeds 40. *)
Definition highlighted_streak (sdf : StrkDf) (e : Entry) : Prop :=
  e_cds e = sdf /\
  e_highlighted e =
    (fgt (series_max (column col_strk_cum sdf)) 10000
     || (40 <? Z.of_nat (length sdf))).

(** A legend entry holds one line, and the chart draws that line. *)
Definition legend_entry_of (lines : list Line) (it : string * list Line)
  : Prop :=
  exists line, snd it = [line] /\ In line lines.

(** A series of [n] streaks of one month, each a gain of 20,000. *)
Fixpoint rises (n : nat) (y : nat) : list (date * option Z) :=
  match n with
  | O => []
  | S n' => (ym y 2, Some 20000) :: (ym y 3, Some 0) :: rises n' (S y)
  end.

Definition zigzag (n : nat) : list (date * option Z) :=
  (ym 1950 1, Some 0) :: rises n 1951.

(** ** The loop on any table

    What the locals satisfy after [k] rounds whatever the gains are: the
    month counter is not negative; while it is not zero, [j], [strk_df]
    and [strk_start_mth_str] are assigned; and it is not zero when the
    row before had a positive gain. *)
Definition Bound (df : list Row) (k : nat) (st : Locals) : Prop :=
  0 <= strk_mths st /\
  (strk_mths st <> 0 ->
   j st <> None /\ strk_df st <> None /\ strk_start_mth_str st <> None) /\
  (forall k' rp, k = S k' -> nth_error df k' = Some rp ->
                 gt0 (empl_mth_gain rp) = true -> strk_mths st <> 0).

(** ** Reading the table of [get_usempl_data] *)



(** ** Where a streak lies in the table *)

Definition starts_not_positive (l : list Row) : Prop :=
  match l with
  | [] => True
  | r :: _ => positive r = false
  end.

(** [run] is a maximal run of rows of positive gain in [df]: the rows
    stand side by side, the row before them (the baseline) has no positive
    gain, and neither has the row after them, if there is one. *)
Definition maximal_run (df run : list Row) : Prop :=
  run <> [] /\
  Forall (fun r => positive r = true) run /\
  exists pre baseline post,
    df = pre ++ baseline :: run ++ post /\
    positive baseline = false /\
    starts_not_positive post.

(** The streak table [sdf] holds the rows of a maximal run of [df]. *)
Definition streak_of (df : list Row) (sdf : StrkDf) : Prop :=
  exists run, maximal_run df run /\ member_obs sdf = map obs_cells run.


(** The series ends in a month of positive gain: its last streak is still
    open. *)
Definition ends_open (df : list Row) : bool :=
  match last_row df with
  | Some r => positive r
  | None => false
  end.

(** [old] with its last entry left out when [open] holds is the front part
    of [new]. *)
Definition kept_in {A : Type} (open : bool) (old new : list A) : Prop :=
  exists kept rest,
    new = kept ++ rest /\
    if open then exists last_one, old = kept ++ [last_one] else old = kept.

(** ** Inside a streak *)



(** ** What the per-streak lists hold *)

(** The total of a streak and the gain of its first month, read on the
    first row of its table. *)
Definition streak_total (sdf : StrkDf) : option Z :=
  match nth_error sdf 0 with
  | Some p => col_strk_cum_tot (snd p)
  | None => None
  end.

Definition first_gain (sdf : StrkDf) : option Z :=
  match nth_error sdf 0 with
  | Some p => col_empl_mth_gain (snd p)
  | None => None
  end.

Definition streak_length (sdf : StrkDf) : option Z :=
  Some (Z.of_nat (length sdf)).

(** ** The data files of [get_usempl_data]

    The data directory as a list of named files, the newest first; what a
    file holds is left open. *)

Definition strftime_Ymd (d : date) : string :=
  (pad4 (year d) ++ "-" ++ pad2 (month d) ++ "-" ++ pad2 (day d))%string.

(** Line 90: the file that is read when nothing is downloaded. *)
Definition local_filename (end_date_str : string) : string :=
  ("usempl_" ++ end_date_str ++ ".csv")%string.

(** Line 104: the file that a download is saved to. *)
Definition download_filename (end_date_str2 : string) : string :=
  ("usempl_" ++ end_date_str2 ++ "_streaks.csv")%string.

(** [df.to_csv(os.path.join(data_dir, filename))]: the file is created or
    replaced. *)
Definition to_csv {A : Type} (filename : string) (content : A)
           (data_dir : list (string * A)) : list (string * A) :=
  (filename, content) :: data_dir.

(** [pd.read_csv(os.path.join(data_dir, filename))]: nothing when there is
    no such file (FileNotFoundError). *)
Fixpoint read_csv {A : Type} (filename : string)
         (data_dir : list (string * A)) : option A :=
  match data_dir with
  | [] => None
  | (name, content) :: rest =>
      if String.eqb name filename then Some content
      else read_csv filename rest
  end.

(** Line 116: the file of the annual figures of 1919-1938. *)
Definition annual_filename : string := "usempl_anual_1919-1938.csv".

(** Lines 104-130: what a download leaves in the data directory and hands
    on.  The series is saved as downloaded; with the annual figures, their
    file is read (nothing is handed on when it is missing: the call stops
    with a FileNotFoundError) and the merged series is saved over the
    first one under the same name.  [merge] stands for the concatenation
    and sort by date of lines 125-129. *)
Definition save_download {A : Type} (merge : A -> A -> A)
           (end_date_str2 : string) (include_annual_1919 : bool)
           (usempl_df : A) (data_dir : list (string * A))
  : list (string * A) * option A :=
  let filename := download_filename end_date_str2 in
  let data_dir1 := to_csv filename usempl_df data_dir in
  if include_annual_1919 then
    match read_csv annual_filename data_dir1 with
    | None => (data_dir1, None)
    | Some usempl_ann_df =>
        let merged := merge usempl_ann_df usempl_df in
        (to_csv filename merged data_dir1, Some merged)
    end
  else (data_dir1, Some usempl_df).

(** Lines 153-161: what a call without download reads. *)
Definition load_local {A : Type} (end_date_str : string)
           (data_dir : list (string * A)) : option A :=
  read_csv (local_filename end_date_str) data_dir.

(** * Proofs *)

Arguments strftime_Ym : simpl never.
Arguments range_label : simpl never.

(** ** Basic facts *)

Lemma run_loop_S (df : list Row) (k : nat) (st : Locals) :
  run_loop df (S k) st =
  (s <- run_loop df k st ;; loop_body df (Z.of_nat k) s).
Proof.
  unfold run_loop. rewrite seq_S, fold_left_app. reflexivity.
Qed.

Lemma loc_nth (df : list Row) (k : nat) (r : Row) :
  nth_error df k = Some r -> loc df (Z.of_nat k) = Ok r.
Proof.
  intros H. unfold loc.
  destruct (Z.ltb_spec (Z.of_nat k) 0) as [Hlt|_]; [lia|].
  rewrite Nat2Z.id, H. reflexivity.
Qed.

Lemma firstn_S_nth {A : Type} (df : list A) (k : nat) (r : A) :
  nth_error df k = Some r -> firstn (S k) df = firstn k df ++ [r].
Proof.
  revert k. induction df as [|a df IH]; intros [|k] H; simpl in *;
    try discriminate.
  - injection H as ->. reflexivity.
  - rewrite (IH _ H). reflexivity.
Qed.

Lemma seg_snoc (l : list Row) (r : Row) :
  seg (l ++ [r]) = seg_step (seg l) r.
Proof. unfold seg. rewrite fold_left_app. reflexivity. Qed.

Lemma seg_step_open (acc : list (list Row) * list Row) (r : Row) :
  snd (seg_step acc r) <> [] <-> positive r = true.
Proof.
  unfold seg_step. destruct (positive r); simpl.
  - split; [reflexivity|]. intros _. destruct (snd acc); discriminate.
  - split; [|discriminate]. destruct acc as [c [|x o]]; simpl; congruence.
Qed.

Lemma with_gain_annotated (l : list (date * Z)) : gain_annotated (with_gain l).
Proof.
  destruct l as [|[d0 v] t]; intros k r H.
  - destruct k; discriminate.
  - destruct k as [|k]; simpl in H.
    + injection H as <-. simpl. tauto.
    + split; [|discriminate]. intros Hn. exfalso.
      revert v k H. induction t as [|[d1 w] t IH]; intros v k H.
      * destruct k; discriminate.
      * destruct k as [|k]; simpl in H.
        -- injection H as <-. discriminate.
        -- eapply IH; eassumption.
Qed.

(** ** Rows appended to a streak table *)

Lemma has_label_app (k : Z) (a b : StrkDf) :
  has_label k (a ++ b) = has_label k a || has_label k b.
Proof. apply existsb_app. Qed.

Lemma loc_set_fresh (k : Z) (f : StrkRow -> StrkRow) (df : StrkDf) :
  has_label k df = false -> loc_set k f df = df ++ [(k, f nan_row)].
Proof. intros H. unfold loc_set. rewrite H. reflexivity. Qed.

Lemma map_no_label (k : Z) (f : StrkRow -> StrkRow) (df : StrkDf) :
  has_label k df = false ->
  map (fun p => if fst p =? k then (fst p, f (snd p)) else p) df = df.
Proof.
  induction df as [|[l s] df IH]; simpl; [reflexivity|].
  intros H. apply orb_false_iff in H as [H1 H2].
  rewrite H1, (IH H2). reflexivity.
Qed.

Lemma loc_set_last (k : Z) (f : StrkRow -> StrkRow) (df : StrkDf)
      (s : StrkRow) :
  has_label k df = false ->
  loc_set k f (df ++ [(k, s)]) = df ++ [(k, f s)].
Proof.
  intros H. unfold loc_set.
  rewrite has_label_app, H. simpl. rewrite Z.eqb_refl. simpl.
  rewrite map_app, (map_no_label _ _ _ H). simpl.
  rewrite Z.eqb_refl. reflexivity.
Qed.

Lemma running_rows_label (k c : Z) (run : list Row) (l : Z) :
  l < k \/ k + Z.of_nat (length run) <= l ->
  has_label l (running_rows k c run) = false.
Proof.
  revert k c. induction run as [|r t IH]; intros k c H; [reflexivity|].
  simpl. apply orb_false_iff. split.
  - apply Z.eqb_neq. simpl length in H. lia.
  - apply IH. simpl length in H. lia.
Qed.

Lemma gain_sum_snoc (run : list Row) (r : Row) :
  gain_sum (run ++ [r]) = gain_sum run + gain_of r.
Proof.
  unfold gain_sum.
  induction run as [|a t IH]; simpl; [lia|].
  rewrite IH. lia.
Qed.

Lemma running_rows_snoc (k c : Z) (run : list Row) (r : Row) :
  running_rows k c (run ++ [r]) =
  running_rows k c run ++
  [(k + Z.of_nat (length run),
    mkStrkRow (Some (Date r)) (Some (PAYEMS r)) (empl_mth_gain r)
      (Some (k + Z.of_nat (length run) + 1))
      (Some (c + gain_sum run + gain_of r)) None None None)].
Proof.
  revert k c. induction run as [|a t IH]; intros k c.
  - simpl. repeat f_equal; lia.
  - cbn [app running_rows]. rewrite IH.
    change (gain_sum (a :: t)) with (gain_of a + gain_sum t).
    change (length (a :: t)) with (S (length t)). rewrite Nat2Z.inj_succ.
    replace (k + 1 + Z.of_nat (length t))
      with (k + Z.succ (Z.of_nat (length t))) by lia.
    replace (c + gain_of a + gain_sum t)
      with (c + (gain_of a + gain_sum t)) by lia.
    reflexivity.
Qed.

(** Lines 262-268 on an open streak's table append one member. *)
Lemma append_member (run : list Row) (r : Row) (g : Z) :
  empl_mth_gain r = Some g ->
  loc_set (Z.of_nat (length run)) (set_strk_cum (Some (gain_sum run + g)))
    (loc_set (Z.of_nat (length run))
       (set_strk_mths (Some (Z.of_nat (length run) + 1)))
       (loc_set (Z.of_nat (length run)) (set_obs r) (running_df run)))
  = running_df (run ++ [r]).
Proof.
  intros Hg.
  assert (Hl : has_label (Z.of_nat (length run)) (running_df run) = false).
  { apply running_rows_label. lia. }
  rewrite (loc_set_fresh _ _ _ Hl).
  rewrite (loc_set_last _ _ _ _ Hl), (loc_set_last _ _ _ _ Hl).
  unfold running_df. rewrite running_rows_snoc.
  unfold gain_of, set_strk_cum, set_strk_mths, set_obs, nan_row.
  rewrite Hg. reflexivity.
Qed.

Lemma label_of_snoc (run : list Row) (r : Row) :
  label_of (run ++ [r]) =
  range_label (start_str (run ++ [r])) (strftime_Ym (Date r)).
Proof.
  destruct run as [|a t]; [reflexivity|].
  simpl. rewrite last_last. reflexivity.
Qed.

Lemma spec_lists_snoc (runs : list (list Row)) (run : list Row) :
  append_streak (label_of run) (finalized_df run) (spec_lists runs) =
  spec_lists (runs ++ [run]).
Proof.
  unfold append_streak, spec_lists. simpl. rewrite !map_app. reflexivity.
Qed.

(** ** The loop keeps the invariant *)

Lemma prev_row_open (df : list Row) (k : nat) :
  (0 < k)%nat -> (k <= length df)%nat ->
  exists rp, loc df (Z.of_nat k - 1) = Ok rp /\
             last (firstn k df) rp = rp /\
             (gt0 (empl_mth_gain rp) = true <-> snd (seg (firstn k df)) <> []) /\
             (snd (seg (firstn k df)) <> [] ->
              forall x, last (snd (seg (firstn k df))) x = rp).
Proof.
  intros H0 Hk. destruct k as [|k]; [lia|].
  destruct (nth_error df k) as [rp|] eqn:Hn.
  2:{ apply nth_error_None in Hn. lia. }
  exists rp. replace (Z.of_nat (S k) - 1) with (Z.of_nat k) by lia.
  rewrite (loc_nth _ _ _ Hn), (firstn_S_nth _ _ _ Hn), seg_snoc.
  split; [reflexivity|]. split; [apply last_last|]. split.
  - symmetry. apply seg_step_open.
  - intros Ho x. apply seg_step_open in Ho. unfold seg_step. rewrite Ho.
    simpl. apply last_last.
Qed.

Lemma close_open_snoc (closed : list (list Row)) (open : list Row) (r : Row) :
  close_open (closed, open ++ [r]) = closed ++ [open ++ [r]].
Proof. unfold close_open. simpl. destruct open; reflexivity. Qed.

Lemma member_branch_Holds (df : list Row) (k : nat) (r : Row) (g : Z)
      (closed : list (list Row)) (open : list Row) (st : Locals) :
  nth_error df k = Some r ->
  empl_mth_gain r = Some g ->
  Holds false k (closed, open) st ->
  exists st', member_branch df (Z.of_nat k) r st = Ok st' /\
              Holds (S k =? length df)%nat (S k) (closed, open ++ [r]) st'.
Proof.
  intros Hr Hg (HL & Hnum & Hm & Hc & Hopen).
  cbn [fst snd] in *.
  unfold member_branch.
  set (st1 := if strk_mths st =? 0 then open_streak _ r st else st).
  assert (H1 : lists st1 = spec_lists closed /\
               strk_num st1 = Z.of_nat (length closed) + 1 /\
               strk_mths st1 = Z.of_nat (length open) /\
               strk_cum st1 = gain_sum open /\
               j st1 = Some (Z.of_nat k - Z.of_nat (length open)) /\
               strk_df st1 = Some (running_df open) /\
               strk_start_mth_str st1 = Some (start_str (open ++ [r]))).
  { subst st1. rewrite Hm. destruct open as [|x o].
    - cbn. rewrite HL, Hnum, Hm, Hc. cbn.
      repeat split; try reflexivity. f_equal. lia.
    - change (Z.of_nat (length (x :: o)) =? 0) with false. cbv iota.
      destruct Hopen as (Hj & Hdf & Hs); [discriminate|].
      rewrite HL, Hnum, Hm, Hc, Hj, Hdf, Hs.
      repeat split; try reflexivity.
      unfold close_open. cbn [snd fst]. rewrite length_app. cbn. lia. }
  clearbody st1.
  destruct H1 as (E1 & E2 & E3 & E4 & E5 & E6 & E7).
  rewrite E5, E6. cbn [read_var bind]. rewrite E3, E4, Hg.
  replace (Z.of_nat k - (Z.of_nat k - Z.of_nat (length open)))
    with (Z.of_nat (length open)) by lia.
  rewrite (append_member open r g Hg).
  assert (Hlen : Z.of_nat (length open) + 1 = Z.of_nat (length (open ++ [r]))).
  { rewrite length_app. cbn. lia. }
  assert (Hsum : gain_sum open + g = gain_sum (open ++ [r])).
  { rewrite gain_sum_snoc. unfold gain_of. rewrite Hg. reflexivity. }
  assert (Hne : open ++ [r] <> []) by (destruct open; discriminate).
  destruct (Z.eqb_spec (Z.of_nat k) (Z.of_nat (length df) - 1)) as [Hl|Hl].
  - replace (S k =? length df)%nat with true
      by (symmetry; apply Nat.eqb_eq; lia).
    rewrite (loc_nth _ _ _ Hr). cbn [bind set_running strk_start_mth_str].
    rewrite E7. cbn [read_var bind].
    eexists. split; [reflexivity|].
    unfold Holds.
    cbn [with_lists set_running lists strk_num strk_mths strk_cum j strk_df
         strk_start_mth_str fst snd].
    rewrite close_open_snoc, E1, E2, Hlen, Hsum, <- label_of_snoc.
    fold (finalized_df (open ++ [r])). rewrite spec_lists_snoc.
    repeat split; try reflexivity.
    + rewrite length_app. cbn. lia.
    + rewrite E5. f_equal. lia.
    + assumption.
  - replace (S k =? length df)%nat with false
      by (symmetry; apply Nat.eqb_neq; lia).
    eexists. split; [reflexivity|].
    unfold Holds.
    cbn [set_running lists strk_num strk_mths strk_cum j strk_df
         strk_start_mth_str fst snd].
    rewrite close_open_snoc, E1, E2, Hlen, Hsum.
    repeat split; try reflexivity.
    + rewrite length_app. cbn. lia.
    + rewrite E5. f_equal. lia.
    + assumption.
Qed.

Lemma close_branch_Holds (df : list Row) (k : nat) (rp : Row) (fin : bool)
      (closed : list (list Row)) (open : list Row) (st : Locals) :
  loc df (Z.of_nat k - 1) = Ok rp ->
  open <> [] ->
  (forall x, last open x = rp) ->
  Holds false k (closed, open) st ->
  exists st', close_branch df (Z.of_nat k) st = Ok st' /\
              Holds fin (S k) (closed ++ [open], []) st'.
Proof.
  intros Hp Hne Hlast (HL & Hnum & Hm & Hc & Hopen).
  cbn [fst snd] in *.
  destruct (Hopen Hne) as (Hj & Hdf & Hs).
  unfold close_branch. rewrite Hdf, Hp, Hs. cbn [read_var bind].
  eexists. split; [reflexivity|].
  unfold Holds.
  cbn [with_lists set_running lists strk_num strk_mths strk_cum j strk_df
       strk_start_mth_str fst snd].
  rewrite HL, Hnum, Hm, Hc. fold (finalized_df open).
  assert (Hlab : range_label (start_str open) (strftime_Ym (Date rp)) =
                 label_of open).
  { destruct open as [|x o]; [congruence|].
    unfold label_of, start_str. rewrite <- (Hlast x).
    destruct o; reflexivity. }
  rewrite Hlab, spec_lists_snoc.
  assert (Hco : close_open (closed ++ [open], []) = closed ++ [open])
    by reflexivity.
  rewrite Hco.
  repeat split; try reflexivity.
  - destruct fin; reflexivity.
  - unfold close_open. cbn [fst snd]. destruct open; [congruence|reflexivity].
  - congruence.
  - congruence.
  - congruence.
Qed.

Lemma skip_Holds (k : nat) (fin : bool) (closed : list (list Row))
      (st : Locals) :
  Holds false k (closed, []) st -> Holds fin (S k) (closed, []) st.
Proof.
  intros (HL & Hnum & Hm & Hc & _). unfold Holds. cbn [fst snd] in *.
  repeat split; try assumption.
  - destruct fin; assumption.
  - congruence.
  - congruence.
  - congruence.
Qed.

Lemma loop_body_Inv (df : list Row) (k : nat) (st : Locals) (r : Row) :
  gain_annotated df -> nth_error df k = Some r -> Inv df k st ->
  exists st', loop_body df (Z.of_nat k) st = Ok st' /\ Inv df (S k) st'.
Proof.
  intros Hga Hr HI.
  assert (Hk : (k < length df)%nat) by (apply nth_error_Some; congruence).
  assert (Hfin : (k =? length df)%nat = false) by (apply Nat.eqb_neq; lia).
  unfold Inv in *. rewrite Hfin in HI.
  rewrite (firstn_S_nth _ _ _ Hr), seg_snoc.
  pose proof (prev_row_open df k) as Hprev.
  destruct (seg (firstn k df)) as [closed open] eqn:Hacc.
  unfold loop_body. rewrite (loc_nth _ _ _ Hr). cbn [bind].
  unfold seg_step, positive. cbn [fst snd].
  destruct (empl_mth_gain r) as [g|] eqn:Hg.
  - cbn [gt0 le0]. destruct (Z.ltb_spec 0 g) as [Hpos|Hnp].
    + eapply member_branch_Holds; eassumption.
    + replace (g <=? 0) with true by (symmetry; apply Z.leb_le; lia).
      assert (Hk0 : (0 < k)%nat).
      { destruct k; [|lia]. destruct (Hga _ _ Hr) as [_ Hx].
        rewrite Hg in Hx. specialize (Hx eq_refl). discriminate. }
      destruct (Hprev Hk0 (Nat.lt_le_incl _ _ Hk))
        as (rp & Hloc & _ & Hiff & Hlast).
      rewrite Hloc. cbn [bind snd] in *.
      replace (0 <? Z.of_nat k) with true by (symmetry; apply Z.ltb_lt; lia).
      rewrite andb_true_r.
      destruct open as [|x o].
      * destruct (gt0 (empl_mth_gain rp)) eqn:Hgp.
        -- exfalso. apply (proj1 Hiff); reflexivity.
        -- eexists. split; [reflexivity|]. apply skip_Holds. assumption.
      * replace (gt0 (empl_mth_gain rp)) with true
          by (symmetry; apply Hiff; discriminate).
        eapply close_branch_Holds; try eassumption; [discriminate|].
        apply Hlast. discriminate.
  - cbn [gt0 le0].
    assert (k = 0%nat) by (apply (Hga _ _ Hr); assumption). subst k.
    cbn in Hacc. injection Hacc as <- <-.
    eexists. split; [reflexivity|]. apply skip_Holds. assumption.
Qed.

Lemma Inv_init (df : list Row) (prior : Locals) : Inv df 0 (init_locals prior).
Proof.
  unfold Inv, Holds. cbn [firstn seg fold_left fst snd close_open].
  repeat split; try congruence.
  destruct (0 =? length df)%nat; reflexivity.
Qed.

Lemma run_loop_Inv (df : list Row) (prior : Locals) (k : nat) :
  gain_annotated df -> (k <= length df)%nat ->
  exists st, run_loop df k (init_locals prior) = Ok st /\ Inv df k st.
Proof.
  intros Hga. induction k as [|k IH]; intros Hk.
  - exists (init_locals prior). split; [reflexivity|apply Inv_init].
  - destruct IH as (st & Hrun & HI); [lia|].
    destruct (nth_error df k) as [r|] eqn:Hr.
    2:{ apply nth_error_None in Hr. lia. }
    destruct (loop_body_Inv df k st r Hga Hr HI) as (st' & Hb & HI').
    exists st'. rewrite run_loop_S, Hrun. cbn [bind]. split; assumption.
Qed.

(** The segmentation block never raises on a table of [get_usempl_data],
    whatever the locals held before, and it leaves the streaks that the
    specification describes. *)
Lemma segmentation_spec (df : list Row) (prior : Locals) :
  gain_annotated df ->
  exists st, segmentation df prior = Ok st /\
             lists st = spec_lists (spec_streaks df) /\
             strk_num st = Z.of_nat (length (spec_streaks df)).
Proof.
  intros Hga.
  destruct (run_loop_Inv df prior (length df) Hga (le_n _))
    as (st & Hrun & HI).
  exists st. split; [exact Hrun|].
  unfold Inv, Holds in HI. rewrite Nat.eqb_refl, firstn_all in HI.
  destruct HI as (HL & Hnum & _). split; assumption.
Qed.

(** ** The runs of the specification *)

Lemma seg_runs (l : list Row) :
  Forall (fun run => run <> [] /\ Forall (fun r => positive r = true) run)
         (fst (seg l)) /\
  Forall (fun r => positive r = true) (snd (seg l)) /\
  concat (fst (seg l)) ++ snd (seg l) = filter positive l.
Proof.
  induction l as [|r l IH] using rev_ind.
  - cbn. repeat split; constructor.
  - rewrite seg_snoc, filter_app. destruct IH as (Hc & Ho & Hcat).
    destruct (seg l) as [closed open]. cbn [fst snd] in *.
    unfold seg_step. cbn [fst snd filter].
    destruct (positive r) eqn:Hp; cbn [fst snd].
    + repeat split; [assumption| |].
      * apply Forall_app. split; [assumption|]. constructor; [assumption|constructor].
      * rewrite app_assoc, Hcat. reflexivity.
    + destruct open as [|x o]; cbn [fst snd].
      * repeat split; [assumption|constructor|].
        rewrite <- Hcat, !app_nil_r. reflexivity.
      * repeat split; [|constructor|].
        -- apply Forall_app. split; [assumption|].
           constructor; [|constructor]. split; [discriminate|assumption].
        -- rewrite concat_app, <- Hcat. cbn. rewrite !app_nil_r. reflexivity.
Qed.

Lemma spec_streaks_runs (l : list Row) :
  Forall (fun run => run <> [] /\ Forall (fun r => positive r = true) run)
         (spec_streaks l) /\
  concat (spec_streaks l) = filter positive l.
Proof.
  destruct (seg_runs l) as (Hc & Ho & Hcat).
  unfold spec_streaks, close_open. destruct (seg l) as [closed open].
  cbn [fst snd] in *. destruct open as [|x o].
  - split; [assumption|]. rewrite <- Hcat, app_nil_r. reflexivity.
  - split.
    + apply Forall_app. split; [assumption|].
      constructor; [|constructor]. split; [discriminate|assumption].
    + rewrite concat_app, <- Hcat. cbn. rewrite app_nil_r. reflexivity.
Qed.

(** A row that is not of positive gain, added at the end, leaves the
    streaks as they are: it only closes what the end of the series closes
    as well. *)
Lemma spec_streaks_trailing (l : list Row) (r : Row) :
  positive r = false -> spec_streaks (l ++ [r]) = spec_streaks l.
Proof.
  intros Hp. unfold spec_streaks. rewrite seg_snoc.
  unfold seg_step. rewrite Hp. destruct (seg l) as [closed [|x o]]; reflexivity.
Qed.

(** ** The table of a closed streak, row by row *)

Lemma running_rows_nth (k c : Z) (run : list Row) (i : nat) :
  nth_error (running_rows k c run) i =
  option_map
    (fun r => (k + Z.of_nat i,
               mkStrkRow (Some (Date r)) (Some (PAYEMS r)) (empl_mth_gain r)
                 (Some (k + Z.of_nat i + 1))
                 (Some (c + gain_sum (firstn (S i) run))) None None None))
    (nth_error run i).
Proof.
  revert k c i. induction run as [|a t IH]; intros k c i.
  - destruct i; reflexivity.
  - destruct i as [|i].
    + cbn [running_rows nth_error option_map firstn gain_sum fold_right].
      repeat f_equal; lia.
    + cbn [running_rows nth_error]. rewrite IH.
      destruct (nth_error t i) as [r|]; [|reflexivity].
      cbn [option_map].
      change (gain_sum (firstn (S (S i)) (a :: t)))
        with (gain_of a + gain_sum (firstn (S i) t)).
      rewrite Nat2Z.inj_succ.
      replace (k + 1 + Z.of_nat i) with (k + Z.succ (Z.of_nat i)) by lia.
      replace (c + gain_of a + gain_sum (firstn (S i) t))
        with (c + (gain_of a + gain_sum (firstn (S i) t))) by lia.
      reflexivity.
Qed.

Lemma finalized_nth (run : list Row) (i : nat) :
  nth_error (finalized_df run) i = option_map (final_row run i) (nth_error run i).
Proof.
  unfold finalized_df, set_totals, set_column, running_df.
  rewrite !nth_error_map, running_rows_nth.
  destruct (nth_error run i) as [r|]; reflexivity.
Qed.

Lemma running_rows_length (k c : Z) (run : list Row) :
  length (running_rows k c run) = length run.
Proof.
  revert k c. induction run as [|a t IH]; intros k c; cbn; [|rewrite IH];
    reflexivity.
Qed.

Lemma finalized_length (run : list Row) :
  length (finalized_df run) = length run.
Proof.
  unfold finalized_df, set_totals, set_column, running_df.
  rewrite !length_map. apply running_rows_length.
Qed.

(** Two lists of one length that agree at every index are equal. *)
Lemma nth_error_ext' {A : Type} (l1 l2 : list A) :
  (forall i, nth_error l1 i = nth_error l2 i) -> l1 = l2.
Proof.
  revert l2. induction l1 as [|a l1 IH]; intros [|b l2] H.
  - reflexivity.
  - specialize (H 0%nat). discriminate.
  - specialize (H 0%nat). discriminate.
  - pose proof (H 0%nat) as H0. injection H0 as ->.
    f_equal. apply IH. intros i. exact (H (S i)).
Qed.

Lemma finalized_map (A : Type) (run : list Row) (f : Z * StrkRow -> A)
      (g : Row -> A) :
  (forall i r, nth_error run i = Some r -> f (final_row run i r) = g r) ->
  map f (finalized_df run) = map g run.
Proof.
  intros H. apply nth_error_ext'. intros i.
  rewrite !nth_error_map, finalized_nth.
  destruct (nth_error run i) as [r|] eqn:Hr; [|reflexivity].
  cbn [option_map]. rewrite (H _ _ Hr). reflexivity.
Qed.

(** ** Members of the streaks *)

Lemma get_usempl_data_annotated (raw : list (date * option Z)) :
  gain_annotated (get_usempl_data raw).
Proof. apply with_gain_annotated. Qed.

Lemma member_obs_finalized (run : list Row) :
  member_obs (finalized_df run) = map obs_cells run.
Proof. apply finalized_map. reflexivity. Qed.

Lemma all_members_spec (runs : list (list Row)) :
  all_members (spec_lists runs) = map obs_cells (concat runs).
Proof.
  unfold all_members. cbn [spec_lists strk_df_lst].
  rewrite map_map, concat_map. f_equal.
  apply map_ext. apply member_obs_finalized.
Qed.

Lemma positive_dates_NoDup (df : list Row) :
  NoDup (map Date df) ->
  NoDup (map (fun r => Some (Date r)) (filter positive df)).
Proof.
  induction df as [|r df IH]; cbn [map filter]; intros H; [constructor|].
  apply NoDup_cons_iff in H as [Hr Hd].
  destruct (positive r); [|auto]. cbn [map]. constructor; [|auto].
  intros Hin. apply Hr. apply in_map_iff in Hin as (x & Hx & Hf).
  injection Hx as Hx. rewrite <- Hx. apply in_map.
  apply filter_In in Hf. tauto.
Qed.

Lemma obs_cells_inj (r1 r2 : Row) : obs_cells r1 = obs_cells r2 -> r1 = r2.
Proof.
  destruct r1, r2. unfold obs_cells. cbn. congruence.
Qed.

(** C1. Every observation of strictly positive gain is a member of exactly
    one streak and no other observation is a member of any: the members of
    all streaks, read streak after streak, are the observations of positive
    gain in their order, each once; an observation of the table is a member
    if and only if its gain is positive; dates that are distinct in the
    table are distinct across all streaks; and the baseline month before a
    streak's first month is no member. *)
Theorem C1_members_are_the_positive_gains (raw : list (date * option Z)) :
  exists st,
    segmentation (get_usempl_data raw) fresh_locals = Ok st /\
    all_members (lists st) =
      map obs_cells (filter positive (get_usempl_data raw)) /\
    (forall r, In r (get_usempl_data raw) ->
               (In (obs_cells r) (all_members (lists st)) <->
                positive r = true)) /\
    (NoDup (map Date (get_usempl_data raw)) ->
     NoDup (map member_date (all_members (lists st)))) /\
    (forall i baseline first,
        nth_error (get_usempl_data raw) i = Some baseline ->
        nth_error (get_usempl_data raw) (S i) = Some first ->
        positive baseline = false -> positive first = true ->
        In (obs_cells first) (all_members (lists st)) /\
        ~ In (obs_cells baseline) (all_members (lists st))).
Proof.
  destruct (segmentation_spec _ fresh_locals (get_usempl_data_annotated raw))
    as (st & Hseg & HL & _).
  exists st. split; [exact Hseg|].
  set (df := get_usempl_data raw) in *.
  assert (Hall : all_members (lists st) = map obs_cells (filter positive df)).
  { rewrite HL, all_members_spec.
    rewrite (proj2 (spec_streaks_runs df)). reflexivity. }
  assert (Hmem : forall r, In r df ->
            (In (obs_cells r) (all_members (lists st)) <-> positive r = true)).
  { intros r Hin. rewrite Hall. split.
    - intros H. apply in_map_iff in H as (r' & Heq & Hf).
      apply obs_cells_inj in Heq. subst r'. apply filter_In in Hf. tauto.
    - intros Hp. apply in_map. apply filter_In. tauto. }
  split; [exact Hall|]. split; [exact Hmem|]. split.
  - intros Hnd. rewrite Hall, map_map.
    exact (positive_dates_NoDup df Hnd).
  - intros i b f Hb Hf Hpb Hpf. split.
    + apply Hmem; [eapply nth_error_In; eassumption|assumption].
    + intros Hin. apply Hmem in Hin; [congruence|].
      eapply nth_error_In; eassumption.
Qed.

(** ** Aggregates of a closed streak *)

Lemma positive_gain (r : Row) :
  positive r = true -> empl_mth_gain r = Some (gain_of r) /\ 0 < gain_of r.
Proof.
  unfold positive, gain_of, gt0. destruct (empl_mth_gain r) as [g|];
    [|discriminate].
  intros H. apply Z.ltb_lt in H. split; [reflexivity|assumption].
Qed.

Lemma total_gains (run : list Row) : total (map gain_of run) = gain_sum run.
Proof.
  induction run as [|a t IH]; cbn; [reflexivity|].
  unfold total in IH. rewrite IH. reflexivity.
Qed.

Lemma gains_finalized (run : list Row) :
  Forall (fun r => positive r = true) run ->
  column col_empl_mth_gain (finalized_df run) = map Some (map gain_of run).
Proof.
  intros Hp. unfold column. rewrite map_map.
  apply finalized_map. intros i r Hr. cbn.
  apply positive_gain. rewrite Forall_forall in Hp. apply Hp.
  eapply nth_error_In; eassumption.
Qed.

Lemma finalized_rows (run : list Row) (P : Z * StrkRow -> Prop) :
  (forall i r, nth_error run i = Some r -> P (final_row run i r)) ->
  Forall P (finalized_df run).
Proof.
  intros H. apply Forall_forall. intros p Hin.
  apply In_nth_error in Hin as (i & Hi).
  rewrite finalized_nth in Hi.
  destruct (nth_error run i) as [r|] eqn:Hr; [|discriminate].
  injection Hi as <-. apply H. assumption.
Qed.

Lemma fdiv_one (g : Z) : fdiv g 1 = Some (inject_Z g).
Proof.
  unfold fdiv. cbn [Z.eqb]. f_equal.
  unfold Qdiv, Qmult, Qinv, inject_Z. cbn [Qnum Qden Z.mul Pos.mul].
  rewrite Z.mul_1_r. apply Qred_identity. cbn. apply Z.gcd_1_r.
Qed.

Lemma finalized_df_ok (run : list Row) :
  run <> [] -> Forall (fun r => positive r = true) run ->
  finalized_ok (finalized_df run).
Proof.
  intros Hne Hp. exists (map gain_of run).
  rewrite finalized_length, total_gains.
  split; [apply gains_finalized; assumption|]. split.
  { intros E. apply (f_equal (@length _)) in E.
    rewrite finalized_length in E. destruct run; [congruence|discriminate]. }
  split.
  - apply finalized_rows. intros i r Hr. cbn.
    split; [reflexivity|]. split; [reflexivity|].
    unfold fdiv.
    destruct (Z.eqb_spec (Z.of_nat (length run)) 0) as [E|E].
    { destruct run; [congruence|cbn in E; lia]. }
    eexists. split; [reflexivity|]. apply Qred_correct.
  - intros g Hg. destruct run as [|r [|r' t]]; try discriminate.
    injection Hg as Hg.
    apply finalized_rows. intros i x Hx. cbn.
    rewrite Z.add_0_r, Hg. apply fdiv_one.
Qed.

Lemma finalized_df_running (run : list Row) :
  run <> [] -> Forall (fun r => positive r = true) run ->
  running_ok (finalized_df run).
Proof.
  intros Hne Hp. exists (map gain_of run).
  split; [apply gains_finalized; assumption|]. split.
  { intros E. apply (f_equal (@length _)) in E.
    rewrite finalized_length in E. destruct run; [congruence|discriminate]. }
  split.
  - intros k p Hk. rewrite finalized_nth in Hk.
    destruct (nth_error run k) as [r|] eqn:Hr; [|discriminate].
    injection Hk as <-. cbn [final_row snd col_strk_mths col_strk_cum].
    split; [reflexivity|].
    rewrite firstn_map, total_gains. reflexivity.
  - intros p Hk. rewrite finalized_nth, finalized_length in Hk.
    destruct (nth_error run (length run - 1)) as [r|] eqn:Hr; [|discriminate].
    injection Hk as <-. cbn [final_row snd col_strk_mths col_strk_cum
                             col_strk_mths_tot col_strk_cum_tot].
    assert (Hl : S (length run - 1) = length run).
    { destruct run; [congruence|cbn; lia]. }
    rewrite Hl, firstn_all. split; [|reflexivity].
    f_equal. lia.
Qed.

Lemma spec_lists_Forall (P : StrkDf -> Prop) (l : list Row) :
  (forall run, run <> [] -> Forall (fun r => positive r = true) run ->
               P (finalized_df run)) ->
  Forall P (strk_df_lst (spec_lists (spec_streaks l))).
Proof.
  intros H. cbn [spec_lists strk_df_lst]. apply Forall_map.
  eapply Forall_impl; [|apply (proj1 (spec_streaks_runs l))].
  intros run [Hne Hp]. apply H; assumption.
Qed.

(** C2. Every streak of the collection carries as its length the count of
    its members, as its cumulative gain the sum of their gains and as its
    average gain the quotient of the two; with one member the average is
    that member's gain. *)
Theorem C2_finalized_aggregates (raw : list (date * option Z)) :
  exists st,
    segmentation (get_usempl_data raw) fresh_locals = Ok st /\
    Forall finalized_ok (strk_df_lst (lists st)).
Proof.
  destruct (segmentation_spec _ fresh_locals (get_usempl_data_annotated raw))
    as (st & Hseg & HL & _).
  exists st. split; [exact Hseg|]. rewrite HL.
  apply spec_lists_Forall. apply finalized_df_ok.
Qed.

(** C9. In every streak of the collection the k-th member, counted from 1,
    holds k in [strk_mths] and the sum of the first k member gains in
    [strk_cum]; the last member's two running values are the totals
    [strk_mths_tot] and [strk_cum_tot]. *)
Theorem C9_running_counters (raw : list (date * option Z)) :
  exists st,
    segmentation (get_usempl_data raw) fresh_locals = Ok st /\
    Forall running_ok (strk_df_lst (lists st)).
Proof.
  destruct (segmentation_spec _ fresh_locals (get_usempl_data_annotated raw))
    as (st & Hseg & HL & _).
  exists st. split; [exact Hseg|]. rewrite HL.
  apply spec_lists_Forall. apply finalized_df_running.
Qed.

(** ** The scenarios of the specification *)

(** C3. Gains +5, +3, -1, +2, +2, +2 give two streaks in order, [+5, +3]
    of length 2, sum 8 and average 4, then [+2, +2, +2] of length 3, sum 6
    and average 2; gains -1, -1, +1 give the one streak [+1] of length 1
    whose sum and average are 1. *)
Theorem C3_scenarios :
  (exists st,
      segmentation (get_usempl_data ex1) fresh_locals = Ok st /\
      strk_num st = 2 /\
      map streak_summary (strk_df_lst (lists st)) =
        [([Some 5; Some 3], [Some 2; Some 2], [Some 8; Some 8],
          [Some (inject_Z 4); Some (inject_Z 4)]);
         ([Some 2; Some 2; Some 2], [Some 3; Some 3; Some 3],
          [Some 6; Some 6; Some 6],
          [Some (inject_Z 2); Some (inject_Z 2); Some (inject_Z 2)])]) /\
  (exists st,
      segmentation (get_usempl_data ex2) fresh_locals = Ok st /\
      strk_num st = 1 /\
      map streak_summary (strk_df_lst (lists st)) =
        [([Some 1], [Some 1], [Some 1], [Some (inject_Z 1)])]).
Proof.
  split; eexists; (split; [vm_compute; reflexivity|]);
    split; vm_compute; reflexivity.
Qed.

(** ** A series that ends in a streak *)

Lemma last_cons {A : Type} (a : A) (l : list A) (x : A) :
  last (a :: l) x = last l a.
Proof.
  revert a x. induction l as [|b l IH]; intros a x; [reflexivity|].
  change (last (a :: b :: l) x) with (last (b :: l) x).
  rewrite (IH b x), (IH b a). reflexivity.
Qed.

Lemma last_row_last (l : list Row) (r x : Row) :
  last_row l = Some r -> last l x = r.
Proof.
  unfold last_row. destruct l as [|a l] using rev_ind; [discriminate|].
  rewrite length_app, last_last. cbn [length].
  replace (length l + 1 - 1)%nat with (length l) by lia.
  rewrite nth_error_app2, Nat.sub_diag by lia. cbn. congruence.
Qed.

Lemma dropna_snoc (raw : list (date * option Z)) (dt : date) (v : Z) :
  dropna (raw ++ [(dt, Some v)]) = dropna raw ++ [(dt, v)].
Proof.
  induction raw as [|[d0 [v0|]] raw IH]; cbn; [reflexivity| |assumption].
  rewrite IH. reflexivity.
Qed.

Lemma diff_from_snoc (p : Z) (t : list (date * Z)) (dt : date) (v : Z)
      (dflt : Row) :
  PAYEMS dflt = p ->
  diff_from p (t ++ [(dt, v)]) =
  diff_from p t ++ [mkRow dt v (Some (v - PAYEMS (last (diff_from p t) dflt)))].
Proof.
  revert p dflt. induction t as [|[d1 v1] t IH]; intros p dflt Hd.
  - cbn. rewrite Hd. reflexivity.
  - cbn [app diff_from]. rewrite last_cons.
    rewrite (IH v1 (mkRow d1 v1 (Some (v1 - p))) eq_refl). reflexivity.
Qed.

Lemma get_usempl_data_snoc (raw : list (date * option Z)) (dt : date)
      (v : Z) (r : Row) :
  last_row (get_usempl_data raw) = Some r ->
  get_usempl_data (raw ++ [(dt, Some v)]) =
  get_usempl_data raw ++ [mkRow dt v (Some (v - PAYEMS r))].
Proof.
  unfold get_usempl_data. rewrite dropna_snoc.
  destruct (dropna raw) as [|[d0 v0] t]; [discriminate|].
  intros Hl. cbn [app with_gain].
  rewrite (diff_from_snoc v0 t dt v (mkRow d0 v0 None) eq_refl).
  rewrite <- (last_cons (mkRow d0 v0 None) (diff_from v0 t) r).
  change (mkRow d0 v0 None :: diff_from v0 t) with (with_gain ((d0, v0) :: t)).
  rewrite (last_row_last _ r r Hl). reflexivity.
Qed.

(** C5. A series whose last observation has a positive gain has its open
    streak closed and finalized as a later month of non-positive gain
    would have closed it: the collection is the one that the series gives
    with such a month added, and the last observation is a member. Gains
    +1, +1, +1 give one streak of length 3 and cumulative gain 3. *)
Theorem C5_streak_open_at_the_end :
  (forall (raw : list (date * option Z)) (dt : date) (v : Z) (r : Row),
      last_row (get_usempl_data raw) = Some r ->
      positive r = true ->
      v <= PAYEMS r ->
      exists st st',
        segmentation (get_usempl_data raw) fresh_locals = Ok st /\
        segmentation (get_usempl_data (raw ++ [(dt, Some v)])) fresh_locals
          = Ok st' /\
        lists st = lists st' /\
        strk_num st = strk_num st' /\
        In (obs_cells r) (all_members (lists st))) /\
  (exists st,
      segmentation (get_usempl_data ex3) fresh_locals = Ok st /\
      strk_num st = 1 /\
      map streak_summary (strk_df_lst (lists st)) =
        [([Some 1; Some 1; Some 1], [Some 3; Some 3; Some 3],
          [Some 3; Some 3; Some 3],
          [Some (inject_Z 1); Some (inject_Z 1); Some (inject_Z 1)])]).
Proof.
  split.
  - intros raw dt v r Hl Hp Hv.
    destruct (segmentation_spec _ fresh_locals (get_usempl_data_annotated raw))
      as (st & Hseg & HL & Hn).
    destruct (segmentation_spec _ fresh_locals
                (get_usempl_data_annotated (raw ++ [(dt, Some v)])))
      as (st' & Hseg' & HL' & Hn').
    exists st, st'. split; [exact Hseg|]. split; [exact Hseg'|].
    rewrite (get_usempl_data_snoc _ _ _ _ Hl) in HL', Hn'.
    rewrite spec_streaks_trailing in HL', Hn'.
    2,3: (unfold positive; cbn; apply Z.ltb_ge; lia).
    split; [congruence|]. split; [congruence|].
    rewrite HL, all_members_spec, (proj2 (spec_streaks_runs _)).
    apply in_map, filter_In. split; [|assumption].
    unfold last_row in Hl. eapply nth_error_In; eassumption.
  - eexists. split; [vm_compute; reflexivity|].
    split; vm_compute; reflexivity.
Qed.

Lemma C5_streak_open_at_the_end_witness :
  exists st st',
    segmentation (get_usempl_data ex3) fresh_locals = Ok st /\
    segmentation (get_usempl_data (ex3 ++ [(ym 2002 5, Some 103)]))
                 fresh_locals = Ok st' /\
    lists st = lists st' /\
    strk_num st = strk_num st' /\
    In (obs_cells (mkRow (ym 2002 4) 103 (Some 1))) (all_members (lists st)).
Proof.
  apply (proj1 C5_streak_open_at_the_end ex3 (ym 2002 5) 103
               (mkRow (ym 2002 4) 103 (Some 1))).
  - reflexivity.
  - reflexivity.
  - cbn. lia.
Defined.

(** ** Running the segmentation again *)

(** C7. Two runs of the segmentation on one table leave the same Streak
    Collection: tables, their order, labels, per-streak extrema and the
    number of streaks. Nothing that an earlier run left in the locals
    reaches the result, so a second run that starts from the locals of the
    first one repeats its collection. *)
Theorem C7_segmentation_repeats (raw : list (date * option Z)) :
  (forall prior1 prior2 : Locals,
      on_result collection (segmentation (get_usempl_data raw) prior1) =
      on_result collection (segmentation (get_usempl_data raw) prior2)) /\
  (exists st1 st2,
      segmentation (get_usempl_data raw) fresh_locals = Ok st1 /\
      segmentation (get_usempl_data raw) st1 = Ok st2 /\
      collection st2 = collection st1).
Proof.
  pose proof (get_usempl_data_annotated raw) as Hga.
  split.
  - intros p1 p2.
    destruct (segmentation_spec _ p1 Hga) as (s1 & H1 & L1 & N1).
    destruct (segmentation_spec _ p2 Hga) as (s2 & H2 & L2 & N2).
    rewrite H1, H2. unfold on_result, collection. congruence.
  - destruct (segmentation_spec _ fresh_locals Hga) as (s1 & H1 & L1 & N1).
    destruct (segmentation_spec _ s1 Hga) as (s2 & H2 & L2 & N2).
    exists s1, s2. split; [exact H1|]. split; [exact H2|].
    unfold collection. congruence.
Qed.

(** ** A series without a streak *)

Lemma no_positive_no_streak (l : list Row) :
  filter positive l = [] -> spec_streaks l = [].
Proof.
  intros H. destruct (spec_streaks_runs l) as (Hne & Hcat).
  rewrite H in Hcat. destruct (spec_streaks l) as [|run runs]; [reflexivity|].
  inversion Hne as [|? ? [Hr _] _]; subst.
  destruct run; [congruence|discriminate].
Qed.

Lemma short_series_no_positive (df : list Row) :
  gain_annotated df -> (length df <= 1)%nat -> filter positive df = [].
Proof.
  intros Hga Hlen. destruct df as [|r [|r' t]]; [reflexivity| |cbn in Hlen; lia].
  cbn. unfold positive.
  rewrite (proj2 (Hga 0%nat r eq_refl) eq_refl). reflexivity.
Qed.

(** C6, as the code has it. A series without an observation of positive
    gain, and so every series of zero or one observation, goes through
    the segmentation loop without an error and leaves the collection
    empty; [usempl_streaks] then stops with an error, a KeyError from the
    look-up of the first row when the series is empty and else a
    ValueError from the minimum of an empty list. *)
Theorem C6_no_streak_found (raw : list (date * option Z)) :
  ((length (get_usempl_data raw) <= 1)%nat ->
   filter positive (get_usempl_data raw) = []) /\
  (filter positive (get_usempl_data raw) = [] ->
   (exists st,
       segmentation (get_usempl_data raw) fresh_locals = Ok st /\
       lists st = no_lists /\ strk_num st = 0) /\
   usempl_streaks raw =
     Raise (match get_usempl_data raw with
            | [] => KeyError
            | _ :: _ => ValueError
            end)).
Proof.
  pose proof (get_usempl_data_annotated raw) as Hga.
  split; [apply short_series_no_positive; assumption|].
  intros Hnp.
  destruct (segmentation_spec _ fresh_locals Hga) as (st & Hseg & HL & Hn).
  rewrite (no_positive_no_streak _ Hnp) in HL, Hn.
  split.
  - exists st. split; [exact Hseg|]. split; assumption.
  - unfold usempl_streaks.
    destruct (get_usempl_data raw) as [|r0 t] eqn:Hdf; [reflexivity|].
    change (loc (r0 :: t) 0) with (Ok r0). cbn [bind].
    rewrite Hseg. cbn [bind]. rewrite HL. reflexivity.
Qed.

Lemma C6_no_streak_found_witness :
  filter positive (get_usempl_data ex_one) = [] /\
  (exists st,
      segmentation (get_usempl_data ex_one) fresh_locals = Ok st /\
      lists st = no_lists /\ strk_num st = 0) /\
  usempl_streaks ex_one = Raise ValueError.
Proof.
  split.
  - apply (proj1 (C6_no_streak_found ex_one)). cbn. lia.
  - apply (proj2 (C6_no_streak_found ex_one)). reflexivity.
Defined.

(** C6, as the specification has it, fails on a series of one observation:
    no gain is positive and [usempl_streaks] does not complete. *)
Lemma C6_counterexample :
  filter positive (get_usempl_data ex_one) = [] /\
  ~ (exists fig, usempl_streaks ex_one = Ok fig).
Proof.
  split; [reflexivity|]. intros [fig H]. vm_compute in H. discriminate.
Qed.

(** ** Minima and maxima *)

Lemma fold_min_spec (zs : list Z) (z : Z) :
  In (fold_left Z.min zs z) (z :: zs) /\
  forall x, In x (z :: zs) -> fold_left Z.min zs z <= x.
Proof.
  revert z. induction zs as [|a zs IH]; intros z.
  - cbn. split; [auto|]. intros x [<-|[]]. lia.
  - cbn [fold_left]. destruct (IH (Z.min z a)) as (Hin & Hle). split.
    + destruct Hin as [Hin|Hin]; [|right; right; assumption].
      rewrite <- Hin. destruct (Z.min_spec z a) as [[_ ->]|[_ ->]];
        [left|right; left]; reflexivity.
    + intros x [Hx|[Hx|Hx]].
      * specialize (Hle _ (or_introl eq_refl)). lia.
      * specialize (Hle _ (or_introl eq_refl)). lia.
      * apply Hle. right. assumption.
Qed.

Lemma fold_max_spec (zs : list Z) (z : Z) :
  In (fold_left Z.max zs z) (z :: zs) /\
  forall x, In x (z :: zs) -> x <= fold_left Z.max zs z.
Proof.
  revert z. induction zs as [|a zs IH]; intros z.
  - cbn. split; [auto|]. intros x [<-|[]]. lia.
  - cbn [fold_left]. destruct (IH (Z.max z a)) as (Hin & Hle). split.
    + destruct Hin as [Hin|Hin]; [|right; right; assumption].
      rewrite <- Hin. destruct (Z.max_spec z a) as [[_ ->]|[_ ->]];
        [right; left|left]; reflexivity.
    + intros x [Hx|[Hx|Hx]].
      * specialize (Hle _ (or_introl eq_refl)). lia.
      * specialize (Hle _ (or_introl eq_refl)). lia.
      * apply Hle. right. assumption.
Qed.

Lemma series_min_Some (z : Z) (zs : list Z) :
  series_min (map Some (z :: zs)) = Some (fold_left Z.min zs z).
Proof.
  unfold series_min. cbn [map fold_left nan_min].
  revert z. induction zs as [|a zs IH]; intros z; [reflexivity|].
  cbn [map fold_left nan_min]. apply IH.
Qed.

Lemma series_max_Some (z : Z) (zs : list Z) :
  series_max (map Some (z :: zs)) = Some (fold_left Z.max zs z).
Proof.
  unfold series_max. cbn [map fold_left nan_max].
  revert z. induction zs as [|a zs IH]; intros z; [reflexivity|].
  cbn [map fold_left nan_max]. apply IH.
Qed.

Lemma py_min_Some (z : Z) (zs : list Z) :
  py_min (map Some (z :: zs)) = Ok (Some (fold_left Z.min zs z)).
Proof.
  unfold py_min. cbn [map]. f_equal.
  revert z. induction zs as [|a zs IH]; intros z; [reflexivity|].
  cbn [map fold_left py_lt]. rewrite <- IH. f_equal.
  destruct (Z.ltb_spec a z); f_equal; lia.
Qed.

Lemma py_max_Some (z : Z) (zs : list Z) :
  py_max (map Some (z :: zs)) = Ok (Some (fold_left Z.max zs z)).
Proof.
  unfold py_max. cbn [map]. f_equal.
  revert z. induction zs as [|a zs IH]; intros z; [reflexivity|].
  cbn [map fold_left py_lt]. rewrite <- IH. f_equal.
  destruct (Z.ltb_spec z a); f_equal; lia.
Qed.

Lemma In_map_Some (x : Z) (zs : list Z) : In (Some x) (map Some zs) <-> In x zs.
Proof.
  rewrite in_map_iff. split.
  - intros (y & Hy & Hin). congruence.
  - intros H. exists x. auto.
Qed.

Lemma series_min_least (zs : list Z) :
  zs <> [] -> exists m, series_min (map Some zs) = Some m /\
                        least m (map Some zs).
Proof.
  destruct zs as [|z zs]; [congruence|]. intros _.
  exists (fold_left Z.min zs z). split; [apply series_min_Some|].
  destruct (fold_min_spec zs z) as (Hin & Hle). split.
  - apply In_map_Some. assumption.
  - intros x Hx. apply Hle. apply In_map_Some. assumption.
Qed.

Lemma series_max_greatest (zs : list Z) :
  zs <> [] -> exists m, series_max (map Some zs) = Some m /\
                        greatest m (map Some zs).
Proof.
  destruct zs as [|z zs]; [congruence|]. intros _.
  exists (fold_left Z.max zs z). split; [apply series_max_Some|].
  destruct (fold_max_spec zs z) as (Hin & Hle). split.
  - apply In_map_Some. assumption.
  - intros x Hx. apply Hle. apply In_map_Some. assumption.
Qed.

Lemma least_concat (cols : list (list (option Z))) (ms : list Z) (m : Z) :
  Forall2 (fun col k => least k col) cols ms ->
  In m ms -> (forall x, In x ms -> m <= x) ->
  least m (concat cols).
Proof.
  intros HF Hin Hle. split.
  - apply in_concat. clear Hle.
    induction HF as [|col k cols l Hl HF IH]; [destruct Hin|].
    destruct Hin as [->|Hin].
    + exists col. split; [left; reflexivity|apply Hl].
    + destruct (IH Hin) as (c & Hc & Hm).
      exists c. split; [right|]; assumption.
  - intros x Hx. apply in_concat in Hx as (col & Hcol & Hx).
    clear Hin.
    induction HF as [|c k cols l Hl HF IH]; [destruct Hcol|].
    destruct Hcol as [->|Hcol].
    + specialize (Hle k (or_introl eq_refl)).
      pose proof (proj2 Hl x Hx). lia.
    + apply IH; [|assumption]. intros y Hy. apply Hle. right. assumption.
Qed.

Lemma greatest_concat (cols : list (list (option Z))) (ms : list Z) (m : Z) :
  Forall2 (fun col k => greatest k col) cols ms ->
  In m ms -> (forall x, In x ms -> x <= m) ->
  greatest m (concat cols).
Proof.
  intros HF Hin Hle. split.
  - apply in_concat. clear Hle.
    induction HF as [|col k cols l Hl HF IH]; [destruct Hin|].
    destruct Hin as [->|Hin].
    + exists col. split; [left; reflexivity|apply Hl].
    + destruct (IH Hin) as (c & Hc & Hm).
      exists c. split; [right|]; assumption.
  - intros x Hx. apply in_concat in Hx as (col & Hcol & Hx).
    clear Hin.
    induction HF as [|c k cols l Hl HF IH]; [destruct Hcol|].
    destruct Hcol as [->|Hcol].
    + specialize (Hle k (or_introl eq_refl)).
      pose proof (proj2 Hl x Hx). lia.
    + apply IH; [|assumption]. intros y Hy. apply Hle. right. assumption.
Qed.

(** The minimum of the per-column minima is the least cell of all
    columns, and likewise for the maximum. *)
Lemma global_min (cols : list (list (option Z))) :
  cols <> [] ->
  Forall (fun col => exists zs, zs <> [] /\ col = map Some zs) cols ->
  exists m, py_min (map series_min cols) = Ok (Some m) /\
            least m (concat cols).
Proof.
  intros Hne Hall.
  assert (Hms : exists ms, map series_min cols = map Some ms /\
                           Forall2 (fun col m => least m col) cols ms).
  { clear Hne. induction Hall as [|col cols (zs & Hz & ->) _ (ms & Hms & HF)].
    - exists []. split; constructor.
    - destruct (series_min_least zs Hz) as (m & Hm & Hl).
      exists (m :: ms). cbn [map]. rewrite Hm, Hms. split; [reflexivity|].
      constructor; assumption. }
  destruct Hms as (ms & Hms & HF).
  destruct ms as [|m0 ms]; [inversion HF; subst; congruence|].
  rewrite Hms, py_min_Some.
  exists (fold_left Z.min ms m0). split; [reflexivity|].
  destruct (fold_min_spec ms m0) as (Hin & Hle).
  eapply least_concat; eassumption.
Qed.

Lemma global_max (cols : list (list (option Z))) :
  cols <> [] ->
  Forall (fun col => exists zs, zs <> [] /\ col = map Some zs) cols ->
  exists m, py_max (map series_max cols) = Ok (Some m) /\
            greatest m (concat cols).
Proof.
  intros Hne Hall.
  assert (Hms : exists ms, map series_max cols = map Some ms /\
                           Forall2 (fun col m => greatest m col) cols ms).
  { clear Hne. induction Hall as [|col cols (zs & Hz & ->) _ (ms & Hms & HF)].
    - exists []. split; constructor.
    - destruct (series_max_greatest zs Hz) as (m & Hm & Hl).
      exists (m :: ms). cbn [map]. rewrite Hm, Hms. split; [reflexivity|].
      constructor; assumption. }
  destruct Hms as (ms & Hms & HF).
  destruct ms as [|m0 ms]; [inversion HF; subst; congruence|].
  rewrite Hms, py_max_Some.
  exists (fold_left Z.max ms m0). split; [reflexivity|].
  destruct (fold_max_spec ms m0) as (Hin & Hle).
  eapply greatest_concat; eassumption.
Qed.

(** ** What a finished call of [usempl_streaks] went through *)

Lemma usempl_streaks_Ok (raw : list (date * option Z)) (fig : Figure) :
  usempl_streaks raw = Ok fig ->
  exists r0 st lo hi mlo mhi dr rs,
    loc (get_usempl_data raw) 0 = Ok r0 /\
    segmentation (get_usempl_data raw) fresh_locals = Ok st /\
    py_min (min_cum_val_lst (lists st)) = Ok lo /\
    py_max (max_cum_val_lst (lists st)) = Ok hi /\
    py_min (min_mth_val_lst (lists st)) = Ok mlo /\
    py_max (max_mth_val_lst (lists st)) = Ok mhi /\
    render_loop (lists st) (strk_num st) = Ok rs /\
    fig = mkFigure
            ("Consecutive US monthly employment gain streaks since "
               ++ pad4 (year (Date r0)))%string
            lo hi mlo mhi dr (fig_lst rs) (label_items_lst rs) "mute".
Proof.
  unfold usempl_streaks. intros H.
  destruct (loc (get_usempl_data raw) 0) as [r0|] eqn:H0; [|discriminate].
  cbn [bind] in H.
  destruct (segmentation _ fresh_locals) as [st|] eqn:Hs; [|discriminate].
  cbn [bind] in H.
  destruct (py_min (min_cum_val_lst _)) as [lo|] eqn:H1; [|discriminate].
  cbn [bind] in H.
  destruct (py_max (max_cum_val_lst _)) as [hi|] eqn:H2; [|discriminate].
  cbn [bind] in H.
  destruct (py_min (min_mth_val_lst _)) as [mlo|] eqn:H3; [|discriminate].
  cbn [bind] in H.
  destruct (py_max (max_mth_val_lst _)) as [mhi|] eqn:H4; [|discriminate].
  cbn [bind] in H.
  destruct (py_int _) as [dr|]; [|discriminate].
  cbn [bind] in H.
  destruct (render_loop _ _) as [rs|] eqn:H5; [|discriminate].
  cbn [bind] in H. injection H as <-.
  exists r0, st, lo, hi, mlo, mhi, dr, rs.
  repeat split; first [assumption | reflexivity].
Qed.

Lemma column_numbers (run : list Row) (c : StrkRow -> option Z) :
  run <> [] ->
  (forall i r, nth_error run i = Some r ->
               c (snd (final_row run i r)) <> None) ->
  exists zs, zs <> [] /\ column c (finalized_df run) = map Some zs.
Proof.
  intros Hne Hc.
  exists (map (fun p => match c (snd p) with Some z => z | None => 0 end)
              (finalized_df run)).
  split.
  - intros E. apply (f_equal (@length _)) in E.
    rewrite length_map, finalized_length in E.
    destruct run; [congruence|discriminate].
  - unfold column. rewrite map_map. apply map_ext_in.
    intros p Hp.
    assert (HF : Forall (fun p => c (snd p) <> None) (finalized_df run))
      by (apply finalized_rows; assumption).
    rewrite Forall_forall in HF. specialize (HF p Hp).
    destruct (c (snd p)); congruence.
Qed.

Lemma all_points_spec (c : StrkRow -> option Z) (runs : list (list Row)) :
  all_points c (spec_lists runs) =
  concat (map (fun run => column c (finalized_df run)) runs).
Proof.
  unfold all_points. cbn [spec_lists strk_df_lst]. rewrite map_map.
  reflexivity.
Qed.

Lemma least_strk_mths (runs : list (list Row)) (m : Z) :
  runs <> [] -> Forall (fun run => run <> []) runs ->
  least m (all_points col_strk_mths (spec_lists runs)) -> m = 1.
Proof.
  intros Hne Hall (Hin & Hle). rewrite all_points_spec in *.
  assert (H1 : m <= 1).
  { apply Hle. destruct runs as [|run runs]; [congruence|].
    inversion Hall as [|? ? Hr _]; subst.
    cbn [map concat]. apply in_or_app. left.
    destruct run as [|r t]; [congruence|].
    unfold column. apply in_map_iff.
    exists (final_row (r :: t) 0 r). split; [reflexivity|].
    eapply nth_error_In with (n := 0%nat).
    rewrite finalized_nth. reflexivity. }
  assert (H2 : 1 <= m).
  { apply in_concat in Hin as (col & Hcol & Hin).
    apply in_map_iff in Hcol as (run & <- & _).
    unfold column in Hin. apply in_map_iff in Hin as (p & Hp & Hin).
    apply In_nth_error in Hin as (i & Hi). rewrite finalized_nth in Hi.
    destruct (nth_error run i) as [r|]; [|discriminate].
    injection Hi as <-. cbn in Hp. injection Hp as <-. lia. }
  lia.
Qed.

Lemma extrema_spec (runs : list (list Row)) :
  runs <> [] -> Forall (fun run => run <> []) runs ->
  exists lo hi n,
    py_min (min_cum_val_lst (spec_lists runs)) = Ok (Some lo) /\
    py_max (max_cum_val_lst (spec_lists runs)) = Ok (Some hi) /\
    py_min (min_mth_val_lst (spec_lists runs)) = Ok (Some 1) /\
    py_max (max_mth_val_lst (spec_lists runs)) = Ok (Some n) /\
    least lo (all_points col_strk_cum (spec_lists runs)) /\
    greatest hi (all_points col_strk_cum (spec_lists runs)) /\
    greatest n (all_points col_strk_mths (spec_lists runs)).
Proof.
  intros Hne Hall.
  assert (Hcols : forall c : StrkRow -> option Z,
             (forall run i r, c (snd (final_row run i r)) <> None) ->
             map (fun run => column c (finalized_df run)) runs <> [] /\
             Forall (fun col => exists zs, zs <> [] /\ col = map Some zs)
                    (map (fun run => column c (finalized_df run)) runs)).
  { intros c Hc. split.
    - destruct runs; [congruence|discriminate].
    - apply Forall_map. eapply Forall_impl; [|exact Hall].
      intros run Hr. apply column_numbers; [assumption|].
      intros i r _. apply Hc. }
  destruct (Hcols col_strk_cum) as (Hn1 & Hf1); [discriminate|].
  destruct (Hcols col_strk_mths) as (Hn2 & Hf2); [discriminate|].
  destruct (global_min _ Hn1 Hf1) as (lo & Hlo & Llo).
  destruct (global_max _ Hn1 Hf1) as (hi & Hhi & Lhi).
  destruct (global_min _ Hn2 Hf2) as (mlo & Hmlo & Lmlo).
  destruct (global_max _ Hn2 Hf2) as (n & Hmhi & Lmhi).
  rewrite map_map in Hlo, Hhi, Hmlo, Hmhi.
  rewrite <- all_points_spec in Llo, Lhi, Lmlo, Lmhi.
  assert (mlo = 1) by (eapply least_strk_mths; eassumption). subst mlo.
  exists lo, hi, n. cbn [spec_lists min_cum_val_lst max_cum_val_lst
                          min_mth_val_lst max_mth_val_lst].
  repeat split; try assumption; try apply Llo; try apply Lhi; try apply Lmhi.
Qed.

(** ** The global extrema *)

(** C4, as the code has it. The extrema that scale the chart are taken
    over the points of all streaks, not over the streaks' totals: the least
    and the greatest running cumulative gain and the least and the greatest
    running month count, the least month count being 1. The least and the
    greatest single-month gain are listed per streak and no extremum over
    all streaks is taken of them. For gains +5, +3, -1, +2, +2, +2 the
    values are 2 and 8 for the cumulative gain and 1 and 3 for the
    months. *)
Theorem C4_extrema_over_all_points :
  (forall (raw : list (date * option Z)) (fig : Figure),
      usempl_streaks raw = Ok fig ->
      exists st lo hi n,
        segmentation (get_usempl_data raw) fresh_locals = Ok st /\
        min_cum_val fig = Some lo /\
        least lo (all_points col_strk_cum (lists st)) /\
        max_cum_val fig = Some hi /\
        greatest hi (all_points col_strk_cum (lists st)) /\
        min_mth_val fig = Some 1 /\
        max_mth_val fig = Some n /\
        greatest n (all_points col_strk_mths (lists st)) /\
        min_gain_val_lst (lists st) =
          map (fun sdf => series_min (column col_empl_mth_gain sdf))
              (strk_df_lst (lists st)) /\
        max_gain_val_lst (lists st) =
          map (fun sdf => series_max (column col_empl_mth_gain sdf))
              (strk_df_lst (lists st))) /\
  (exists fig st,
      usempl_streaks ex1 = Ok fig /\
      segmentation (get_usempl_data ex1) fresh_locals = Ok st /\
      min_cum_val fig = Some 2 /\ max_cum_val fig = Some 8 /\
      min_mth_val fig = Some 1 /\ max_mth_val fig = Some 3 /\
      min_gain_val_lst (lists st) = [Some 3; Some 2] /\
      max_gain_val_lst (lists st) = [Some 5; Some 2]).
Proof.
  split.
  - intros raw fig H.
    apply usempl_streaks_Ok in H
      as (r0 & st & lo & hi & mlo & mhi & dr & rs &
          _ & Hs & H1 & H2 & H3 & H4 & _ & ->).
    destruct (segmentation_spec _ fresh_locals (get_usempl_data_annotated raw))
      as (st' & Hs' & HL & _).
    rewrite Hs in Hs'. injection Hs' as <-.
    destruct (spec_streaks_runs (get_usempl_data raw)) as (Hruns & _).
    rewrite HL in *.
    assert (Hne : spec_streaks (get_usempl_data raw) <> []).
    { intros E. rewrite E in H1. discriminate. }
    assert (Hall : Forall (fun run => run <> [])
                          (spec_streaks (get_usempl_data raw))).
    { eapply Forall_impl; [|exact Hruns]. intros run [Hr _]. exact Hr. }
    destruct (extrema_spec _ Hne Hall)
      as (lo' & hi' & n & E1 & E2 & E3 & E4 & L1 & L2 & L3).
    rewrite E1 in H1. rewrite E2 in H2. rewrite E3 in H3. rewrite E4 in H4.
    injection H1 as <-. injection H2 as <-.
    injection H3 as <-. injection H4 as <-.
    exists st, lo', hi', n. rewrite HL.
    cbn [min_cum_val max_cum_val min_mth_val max_mth_val].
    repeat split; try assumption; try apply L1; try apply L2; try apply L3.
    + cbn [spec_lists min_gain_val_lst strk_df_lst]. rewrite map_map.
      reflexivity.
    + cbn [spec_lists max_gain_val_lst strk_df_lst]. rewrite map_map.
      reflexivity.
  - eexists. eexists. split; [vm_compute; reflexivity|].
    split; [vm_compute; reflexivity|]. repeat split.
Qed.

Lemma C4_extrema_over_all_points_witness :
  exists st lo hi n,
    segmentation (get_usempl_data ex1) fresh_locals = Ok st /\
    min_cum_val ex1_fig = Some lo /\
    least lo (all_points col_strk_cum (lists st)) /\
    max_cum_val ex1_fig = Some hi /\
    greatest hi (all_points col_strk_cum (lists st)) /\
    min_mth_val ex1_fig = Some 1 /\
    max_mth_val ex1_fig = Some n /\
    greatest n (all_points col_strk_mths (lists st)) /\
    min_gain_val_lst (lists st) =
      map (fun sdf => series_min (column col_empl_mth_gain sdf))
          (strk_df_lst (lists st)) /\
    max_gain_val_lst (lists st) =
      map (fun sdf => series_max (column col_empl_mth_gain sdf))
          (strk_df_lst (lists st)).
Proof.
  apply (proj1 C4_extrema_over_all_points ex1 ex1_fig).
  vm_compute. reflexivity.
Defined.

(** C4, as the specification has it, fails on its own scenario: the least
    cumulative gain is not 6 and the least length is not 2. *)
Lemma C4_counterexample :
  ~ (exists fig,
        usempl_streaks ex1 = Ok fig /\
        min_cum_val fig = Some 6 /\ max_cum_val fig = Some 8 /\
        min_mth_val fig = Some 2 /\ max_mth_val fig = Some 3).
Proof.
  intros (fig & H & H1 & _). vm_compute in H. injection H as <-.
  discriminate.
Qed.

(** ** The rendering loop *)

Lemma py_index_nth {A : Type} (l : list A) (i : nat) (a : A) :
  nth_error l i = Some a -> py_index l (Z.of_nat i) = Ok a.
Proof.
  intros H. unfold py_index.
  assert (Hi : (i < length l)%nat) by (apply nth_error_Some; congruence).
  destruct (Z.ltb_spec (Z.of_nat i) 0) as [?|_]; [lia|].
  destruct (Z.ltb_spec (Z.of_nat i) 0) as [?|_]; [lia|].
  destruct (Z.leb_spec (Z.of_nat (length l)) (Z.of_nat i)) as [?|_]; [lia|].
  cbn [orb]. rewrite Nat2Z.id, H. reflexivity.
Qed.

Lemma palette_in_range (k : nat) :
  (k < 16)%nat ->
  py_index Viridis8 (7 - Z.of_nat k) = Ok (palette k) /\
  In (palette k) Viridis8.
Proof.
  intros Hk. do 16 (destruct k as [|k]; [vm_compute; intuition|]). lia.
Qed.

Lemma palette_out_of_range (k : nat) :
  (16 <= k)%nat -> py_index Viridis8 (7 - Z.of_nat k) = Raise IndexError.
Proof.
  intros Hk. unfold py_index.
  change (Z.of_nat (length Viridis8)) with 8.
  destruct (Z.ltb_spec (7 - Z.of_nat k) 0) as [_|?]; [|lia].
  destruct (Z.ltb_spec (7 - Z.of_nat k + 8) 0) as [_|?]; [|lia].
  reflexivity.
Qed.

Lemma count_highlighted_snoc (es : list Entry) (e : Entry) :
  count_highlighted (es ++ [e]) =
  (count_highlighted es + if e_highlighted e then 1 else 0)%nat.
Proof.
  unfold count_highlighted. rewrite filter_app, length_app. cbn.
  destruct (e_highlighted e); reflexivity.
Qed.

Lemma spec_lines_snoc (k : nat) (es : list Entry) (e : Entry) :
  spec_lines k (es ++ [e]) =
  spec_lines k es ++ [line_of e (k + count_highlighted es)].
Proof.
  revert k. induction es as [|a es IH]; intros k.
  - cbn. rewrite Nat.add_0_r. reflexivity.
  - cbn [app spec_lines]. rewrite IH. unfold count_highlighted.
    cbn [filter]. destruct (e_highlighted a); cbn [length app].
    + rewrite Nat.add_succ_r. reflexivity.
    + reflexivity.
Qed.

Lemma spec_legend_snoc (k : nat) (es : list Entry) (e : Entry) :
  spec_legend k (es ++ [e]) =
  spec_legend k es ++
  (if e_highlighted e
   then [(e_label e, [line_of e (k + count_highlighted es)])] else []).
Proof.
  revert k. induction es as [|a es IH]; intros k.
  - cbn. rewrite Nat.add_0_r. destruct (e_highlighted e); reflexivity.
  - cbn [app spec_legend]. unfold count_highlighted. cbn [filter].
    destruct (e_highlighted a); cbn [length app]; rewrite IH.
    + rewrite Nat.add_succ_r. reflexivity.
    + reflexivity.
Qed.

Lemma combine_map_same {A B C : Type} (f : A -> B) (g : A -> C)
      (l : list A) :
  combine (map f l) (map g l) = map (fun x => (f x, g x)) l.
Proof. induction l as [|a l IH]; cbn; [|rewrite IH]; reflexivity. Qed.

Lemma entries_spec (runs : list (list Row)) :
  entries (spec_lists runs) = map entry_of runs.
Proof.
  unfold entries. cbn [spec_lists strk_label_lst strk_cds_lst
                       max_cum_val_lst max_mth_val_lst].
  rewrite !combine_map_same, map_map. reflexivity.
Qed.

(** One round of the loop on the streak under index [i]. *)
Lemma render_body_spec (runs : list (list Row)) (i : nat) (run : list Row)
      (rs : RenderState) (c : nat) :
  nth_error runs i = Some run ->
  r_j rs = Z.of_nat c - 1 ->
  render_body (spec_lists runs) (Z.of_nat i) rs =
  if e_highlighted (entry_of run) && (16 <=? c)%nat then Raise IndexError
  else Ok (mkRenderState
             (Z.of_nat (c + if e_highlighted (entry_of run) then 1 else 0) - 1)
             (fig_lst rs ++ [line_of (entry_of run) c])
             (label_items_lst rs ++
              if e_highlighted (entry_of run)
              then [(e_label (entry_of run), [line_of (entry_of run) c])]
              else [])).
Proof.
  intros Hr Hj. unfold render_body.
  cbn [spec_lists strk_label_lst strk_cds_lst max_cum_val_lst max_mth_val_lst].
  rewrite (py_index_nth _ i _ (map_nth_error _ _ _ Hr)). cbn [bind].
  assert (Hh : (if fgt (series_max (column col_strk_cum (finalized_df run)))
                       10000
                then Ok true
                else max_mth <- py_index
                       (map (fun run0 => series_max
                               (column col_strk_mths (finalized_df run0)))
                            runs) (Z.of_nat i) ;;
                     Ok (fgt max_mth 40))
               = Ok (e_highlighted (entry_of run))).
  { cbn [entry_of e_highlighted]. unfold highlighted.
    destruct (fgt (series_max (column col_strk_cum (finalized_df run))) 10000);
      [reflexivity|].
    rewrite (py_index_nth _ i _ (map_nth_error _ _ _ Hr)). reflexivity. }
  rewrite Hh. cbn [bind].
  rewrite (py_index_nth _ i _ (map_nth_error finalized_df _ _ Hr)).
  cbn [bind].
  unfold line_of.
  destruct (e_highlighted (entry_of run)) eqn:He; cbn [andb].
  - rewrite Hj. replace (7 - (Z.of_nat c - 1 + 1)) with (7 - Z.of_nat c) by lia.
    destruct (Nat.leb_spec 16 c) as [Hc|Hc].
    + rewrite (palette_out_of_range c Hc). reflexivity.
    + rewrite (proj1 (palette_in_range c Hc)). cbn [bind].
      rewrite (py_index_nth _ i _ (map_nth_error label_of _ _ Hr)).
      cbn [bind entry_of e_cds e_label].
      replace (Z.of_nat c - 1 + 1) with (Z.of_nat (c + 1) - 1) by lia.
      reflexivity.
  - cbn [entry_of e_cds]. rewrite Hj, app_nil_r, Nat.add_0_r. reflexivity.
Qed.

Lemma render_steps (runs : list (list Row)) (i : nat) :
  (i <= length runs)%nat ->
  fold_left (fun acc i => rs <- acc ;;
                          render_body (spec_lists runs) (Z.of_nat i) rs)
            (seq 0 i) (Ok (mkRenderState (-1) [] [])) =
  if (count_highlighted (firstn i (map entry_of runs)) <=? 16)%nat
  then Ok (mkRenderState
             (Z.of_nat (count_highlighted (firstn i (map entry_of runs))) - 1)
             (spec_lines 0 (firstn i (map entry_of runs)))
             (spec_legend 0 (firstn i (map entry_of runs))))
  else Raise IndexError.
Proof.
  induction i as [|i IH]; intros Hi; [reflexivity|].
  rewrite seq_S, fold_left_app, IH by lia. cbn [fold_left Nat.add].
  destruct (nth_error runs i) as [run|] eqn:Hr.
  2:{ apply nth_error_None in Hr. lia. }
  rewrite (firstn_S_nth _ _ _ (map_nth_error entry_of _ _ Hr)).
  rewrite count_highlighted_snoc, spec_lines_snoc, spec_legend_snoc.
  set (es := firstn i (map entry_of runs)).
  set (c := count_highlighted es).
  destruct (Nat.leb_spec c 16) as [Hc|Hc]; cbn [bind].
  - rewrite (render_body_spec runs i run
               (mkRenderState (Z.of_nat c - 1) (spec_lines 0 es)
                              (spec_legend 0 es)) c Hr eq_refl).
    cbn [fig_lst label_items_lst Nat.add].
    destruct (e_highlighted (entry_of run)); cbn [andb].
    + destruct (Nat.leb_spec 16 c) as [Hc'|Hc'].
      * replace (c + 1 <=? 16)%nat with false
          by (symmetry; apply Nat.leb_gt; lia).
        reflexivity.
      * replace (c + 1 <=? 16)%nat with true
          by (symmetry; apply Nat.leb_le; lia).
        reflexivity.
    + rewrite Nat.add_0_r.
      replace (c <=? 16)%nat with true by (symmetry; apply Nat.leb_le; lia).
      reflexivity.
  - replace (c + (if e_highlighted (entry_of run) then 1 else 0) <=? 16)%nat
      with false by (symmetry; apply Nat.leb_gt;
                     destruct (e_highlighted (entry_of run)); lia).
    reflexivity.
Qed.

(** The whole loop: it raises exactly when more than sixteen streaks are
    highlighted. *)
Lemma render_loop_spec (runs : list (list Row)) :
  render_loop (spec_lists runs) (Z.of_nat (length runs)) =
  if (count_highlighted (map entry_of runs) <=? 16)%nat
  then Ok (mkRenderState
             (Z.of_nat (count_highlighted (map entry_of runs)) - 1)
             (spec_lines 0 (map entry_of runs))
             (spec_legend 0 (map entry_of runs)))
  else Raise IndexError.
Proof.
  unfold render_loop. rewrite Nat2Z.id, render_steps by lia.
  rewrite <- (length_map entry_of runs), firstn_all. reflexivity.
Qed.

Lemma spec_lines_drawn (k : nat) (es : list Entry) :
  (k + count_highlighted es <= 16)%nat ->
  Forall2 drawn_as es (spec_lines k es).
Proof.
  revert k. induction es as [|e es IH]; intros k Hk; [constructor|].
  cbn [spec_lines]. unfold count_highlighted in Hk. cbn [filter] in Hk.
  constructor.
  - unfold drawn_as, line_of.
    destruct (e_highlighted e); cbn in *; [|auto].
    split; [reflexivity|]. split; [|reflexivity].
    apply palette_in_range. lia.
  - apply IH. unfold count_highlighted.
    destruct (e_highlighted e); cbn in Hk; lia.
Qed.

Lemma spec_legend_labels (k : nat) (es : list Entry) :
  map fst (spec_legend k es) = map e_label (filter e_highlighted es).
Proof.
  revert k. induction es as [|e es IH]; intros k; [reflexivity|].
  cbn [spec_legend filter]. destruct (e_highlighted e); cbn [map];
    rewrite IH; reflexivity.
Qed.

Lemma spec_legend_colours (k : nat) (es : list Entry) :
  map (fun it => map color (snd it)) (spec_legend k es) =
  map (fun q => [palette q]) (seq k (count_highlighted es)).
Proof.
  revert k. induction es as [|e es IH]; intros k; [reflexivity|].
  cbn [spec_legend]. unfold count_highlighted. cbn [filter].
  destruct (e_highlighted e) eqn:He.
  - cbn [map length seq snd]. rewrite IH. unfold line_of. rewrite He.
    reflexivity.
  - apply IH.
Qed.

Lemma spec_legend_lines (k : nat) (es : list Entry) :
  Forall (legend_entry_of (spec_lines k es)) (spec_legend k es).
Proof.
  revert k. induction es as [|e es IH]; intros k; [constructor|].
  cbn [spec_legend spec_lines]. destruct (e_highlighted e).
  - constructor.
    + exists (line_of e k). split; [reflexivity|left; reflexivity].
    + eapply Forall_impl; [|apply IH].
      intros it (line & H1 & H2). exists line. split; [assumption|].
      right. assumption.
  - eapply Forall_impl; [|apply IH].
    intros it (line & H1 & H2). exists line. split; [assumption|].
    right. assumption.
Qed.

Lemma series_max_strk_mths (run : list Row) :
  run <> [] ->
  series_max (column col_strk_mths (finalized_df run)) =
  Some (Z.of_nat (length run)).
Proof.
  intros Hne.
  destruct (column_numbers run col_strk_mths Hne) as (zs & Hz & Hcol);
    [discriminate|].
  destruct (series_max_greatest zs Hz) as (m & Hm & Hin & Hle).
  rewrite Hcol, Hm. rewrite <- Hcol in Hin, Hle. f_equal.
  assert (H1 : Z.of_nat (length run) <= m).
  { apply Hle. unfold column. apply in_map_iff.
    destruct (nth_error run (length run - 1)) as [r|] eqn:Hr.
    2:{ apply nth_error_None in Hr. destruct run; [congruence|cbn in Hr; lia]. }
    exists (final_row run (length run - 1) r). split.
    - cbn. f_equal. destruct run; [congruence|cbn; lia].
    - eapply nth_error_In with (n := (length run - 1)%nat).
      rewrite finalized_nth, Hr. reflexivity. }
  assert (H2 : m <= Z.of_nat (length run)).
  { unfold column in Hin. apply in_map_iff in Hin as (p & Hp & Hin).
    apply In_nth_error in Hin as (i & Hi). rewrite finalized_nth in Hi.
    destruct (nth_error run i) as [r|] eqn:Hr; [|discriminate].
    injection Hi as <-. cbn in Hp. injection Hp as <-.
    assert (i < length run)%nat by (apply nth_error_Some; congruence). lia. }
  lia.
Qed.

Lemma entries_highlighted (runs : list (list Row)) :
  Forall (fun run => run <> []) runs ->
  Forall2 highlighted_streak (map finalized_df runs) (map entry_of runs).
Proof.
  induction 1 as [|run runs Hr _ IH]; cbn [map]; constructor; [|exact IH].
  unfold highlighted_streak, entry_of, highlighted. cbn [e_cds e_highlighted].
  split; [reflexivity|].
  rewrite (series_max_strk_mths run Hr), finalized_length. reflexivity.
Qed.

Lemma table_label_finalized (run : list Row) :
  run <> [] -> table_label (finalized_df run) = Some (label_of run).
Proof.
  intros Hne. unfold table_label.
  rewrite !finalized_nth, finalized_length.
  destruct run as [|r t]; [congruence|].
  destruct (nth_error (r :: t) (length (r :: t) - 1)) as [q|] eqn:Hq.
  2:{ apply nth_error_None in Hq. cbn in Hq. lia. }
  cbn [nth_error option_map final_row snd col_Date label_of].
  rewrite <- (last_cons r t q), (last_row_last (r :: t) q q Hq). reflexivity.
Qed.

(** With at least one streak, [usempl_streaks] reaches the rendering loop
    and returns what the loop returns. *)
Lemma usempl_streaks_render (raw : list (date * option Z)) (st : Locals) :
  segmentation (get_usempl_data raw) fresh_locals = Ok st ->
  spec_streaks (get_usempl_data raw) <> [] ->
  exists title lo hi n,
    usempl_streaks raw =
    on_result (fun rs => mkFigure title (Some lo) (Some hi) (Some 1) (Some n)
                           (1 + n) (fig_lst rs) (label_items_lst rs) "mute")
              (render_loop (lists st) (strk_num st)).
Proof.
  intros Hs Hne.
  destruct (segmentation_spec _ fresh_locals (get_usempl_data_annotated raw))
    as (st' & Hs' & HL & _).
  rewrite Hs in Hs'. injection Hs' as <-.
  destruct (spec_streaks_runs (get_usempl_data raw)) as (Hruns & _).
  assert (Hall : Forall (fun run => run <> [])
                        (spec_streaks (get_usempl_data raw))).
  { eapply Forall_impl; [|exact Hruns]. intros run [Hr _]. exact Hr. }
  destruct (extrema_spec _ Hne Hall)
    as (lo & hi & n & E1 & E2 & E3 & E4 & _).
  unfold usempl_streaks.
  destruct (get_usempl_data raw) as [|r0 t] eqn:Hdf.
  { exfalso. apply Hne. reflexivity. }
  change (loc (r0 :: t) 0) with (Ok r0). cbn [bind].
  rewrite <- HL in E1, E2, E3, E4.
  rewrite Hs. cbn [bind].
  rewrite E1, E2, E3, E4. cbn [bind py_int].
  eexists _, lo, hi, n.
  destruct (render_loop (lists st) (strk_num st)); reflexivity.
Qed.

(** C10. A streak is drawn in a colour of Viridis8 at width 4, and enters
    the legend, if and only if its greatest running cumulative gain exceeds
    10,000 or its length exceeds 40; any other streak is drawn in orange at
    width 2 and stays out of the legend. The q-th such streak, counted
    from 0, takes the colour under index 7 - q, one less per streak: from
    the ninth on the index is negative and repeats the colours from the
    end of the palette, and with a seventeenth the look-up raises an
    IndexError, which ends [usempl_streaks]. *)
Theorem C10_palette_index (raw : list (date * option Z)) :
  exists st,
    segmentation (get_usempl_data raw) fresh_locals = Ok st /\
    Forall2 highlighted_streak (strk_df_lst (lists st)) (entries (lists st)) /\
    (if (count_highlighted (entries (lists st)) <=? 16)%nat
     then exists rs,
         render_loop (lists st) (strk_num st) = Ok rs /\
         Forall2 drawn_as (entries (lists st)) (fig_lst rs) /\
         map fst (label_items_lst rs) =
           map e_label (filter e_highlighted (entries (lists st))) /\
         Forall (legend_entry_of (fig_lst rs)) (label_items_lst rs) /\
         map (fun it => map color (snd it)) (label_items_lst rs) =
           map (fun q => [palette q])
               (seq 0 (count_highlighted (entries (lists st))))
     else render_loop (lists st) (strk_num st) = Raise IndexError /\
          usempl_streaks raw = Raise IndexError) /\
    (forall q : nat,
        ((q < 16)%nat ->
         py_index Viridis8 (7 - Z.of_nat q) = Ok (palette q) /\
         In (palette q) Viridis8) /\
        ((8 <= q < 16)%nat ->
         7 - Z.of_nat q < 0 /\ palette q = palette (q - 8)) /\
        ((16 <= q)%nat ->
         py_index Viridis8 (7 - Z.of_nat q) = Raise IndexError)).
Proof.
  destruct (segmentation_spec _ fresh_locals (get_usempl_data_annotated raw))
    as (st & Hs & HL & Hn).
  exists st. split; [exact Hs|].
  destruct (spec_streaks_runs (get_usempl_data raw)) as (Hruns & _).
  assert (Hall : Forall (fun run => run <> [])
                        (spec_streaks (get_usempl_data raw))).
  { eapply Forall_impl; [|exact Hruns]. intros run [Hr _]. exact Hr. }
  pose proof (usempl_streaks_render raw st Hs) as Hfig.
  rewrite Hn, HL, entries_spec, render_loop_spec in *.
  cbn [spec_lists strk_df_lst].
  set (es := map entry_of (spec_streaks (get_usempl_data raw))) in *.
  split; [apply entries_highlighted; assumption|]. split.
  - destruct (Nat.leb_spec (count_highlighted es) 16) as [Hc|Hc].
    + eexists. split; [reflexivity|]. cbn [fig_lst label_items_lst].
      split; [apply spec_lines_drawn; lia|].
      split; [apply spec_legend_labels|].
      split; [apply spec_legend_lines|apply spec_legend_colours].
    + split; [reflexivity|].
      destruct Hfig as (title & lo & hi & n & Hfig).
      * intros E. subst es. rewrite E in Hc. cbn in Hc. lia.
      * rewrite Hfig. reflexivity.
  - intros q. split; [apply palette_in_range|]. split.
    + intros [H8 H16]. split; [lia|].
      do 8 (destruct q as [|q]; [lia|]).
      do 8 (destruct q as [|q]; [reflexivity|]). lia.
    + apply palette_out_of_range.
Qed.

Example nine_highlighted_streaks :
  exists fig,
    usempl_streaks (zigzag 9) = Ok fig /\
    map color (renderers fig) =
      ["#FDE724"; "#9FDA3A"; "#49C16D"; "#1FA187"; "#277E8E"; "#365A8C";
       "#46317E"; "#440154"; "#FDE724"]%string /\
    length (legend_items fig) = 9%nat.
Proof.
  eexists. split; [vm_compute; reflexivity|]. split; reflexivity.
Qed.

Example seventeen_highlighted_streaks :
  usempl_streaks (zigzag 17) = Raise IndexError.
Proof. vm_compute. reflexivity. Qed.

(** ** The legend *)

Lemma labels_of_entries (runs : list (list Row)) :
  map e_label (map entry_of runs) = map label_of runs.
Proof. rewrite map_map. reflexivity. Qed.

Lemma table_labels (runs : list (list Row)) :
  Forall (fun run => run <> []) runs ->
  map Some (map label_of runs) = map table_label (map finalized_df runs).
Proof.
  intros H. rewrite !map_map. apply map_ext_in. intros run Hin.
  rewrite Forall_forall in H. symmetry. apply table_label_finalized.
  apply H. assumption.
Qed.

(** C8, as the code has it. The legend, whose entries mute a line on a
    click, holds an entry for a streak if and only if the streak is
    highlighted, that is if its greatest running cumulative gain exceeds
    10,000 or its length exceeds 40. An entry is keyed by the streak's
    label, the month of its first member, " to ", the month of its last
    member, and holds the line drawn for the streak. *)
Theorem C8_legend_of_highlighted_streaks
        (raw : list (date * option Z)) (fig : Figure) :
  usempl_streaks raw = Ok fig ->
  exists st,
    segmentation (get_usempl_data raw) fresh_locals = Ok st /\
    map e_label (entries (lists st)) = strk_label_lst (lists st) /\
    map Some (strk_label_lst (lists st)) =
      map table_label (strk_df_lst (lists st)) /\
    Forall2 highlighted_streak (strk_df_lst (lists st)) (entries (lists st)) /\
    map fst (legend_items fig) =
      map e_label (filter e_highlighted (entries (lists st))) /\
    Forall (legend_entry_of (renderers fig)) (legend_items fig) /\
    click_policy fig = "mute"%string.
Proof.
  intros H.
  apply usempl_streaks_Ok in H
    as (r0 & st & lo & hi & mlo & mhi & dr & rs &
        _ & Hs & _ & _ & _ & _ & Hr & ->).
  destruct (segmentation_spec _ fresh_locals (get_usempl_data_annotated raw))
    as (st' & Hs' & HL & Hn).
  rewrite Hs in Hs'. injection Hs' as <-.
  destruct (spec_streaks_runs (get_usempl_data raw)) as (Hruns & _).
  assert (Hall : Forall (fun run => run <> [])
                        (spec_streaks (get_usempl_data raw))).
  { eapply Forall_impl; [|exact Hruns]. intros run [Hne _]. exact Hne. }
  exists st. split; [exact Hs|].
  rewrite Hn, HL, render_loop_spec in Hr. rewrite HL, entries_spec.
  cbn [spec_lists strk_df_lst strk_label_lst legend_items renderers
       click_policy].
  destruct (count_highlighted _ <=? 16)%nat; [|discriminate].
  injection Hr as <-. cbn [fig_lst label_items_lst].
  split; [apply labels_of_entries|].
  split; [apply table_labels; assumption|].
  split; [apply entries_highlighted; assumption|].
  split; [apply spec_legend_labels|].
  split; [apply spec_legend_lines|reflexivity].
Qed.

Lemma C8_legend_of_highlighted_streaks_witness :
  exists st,
    segmentation (get_usempl_data ex1) fresh_locals = Ok st /\
    map e_label (entries (lists st)) = strk_label_lst (lists st) /\
    map Some (strk_label_lst (lists st)) =
      map table_label (strk_df_lst (lists st)) /\
    Forall2 highlighted_streak (strk_df_lst (lists st)) (entries (lists st)) /\
    map fst (legend_items ex1_fig) =
      map e_label (filter e_highlighted (entries (lists st))) /\
    Forall (legend_entry_of (renderers ex1_fig)) (legend_items ex1_fig) /\
    click_policy ex1_fig = "mute"%string.
Proof.
  apply (C8_legend_of_highlighted_streaks ex1 ex1_fig).
  vm_compute. reflexivity.
Defined.

(** C8, as the specification has it, fails on gains +5, +3, -1, +2, +2,
    +2: the collection holds two streaks and the legend is empty. *)
Lemma C8_counterexample :
  ~ (forall fig st,
        usempl_streaks ex1 = Ok fig ->
        segmentation (get_usempl_data ex1) fresh_locals = Ok st ->
        forall label, In label (strk_label_lst (lists st)) ->
                      In label (map fst (legend_items fig))).
Proof.
  intros H.
  destruct (segmentation (get_usempl_data ex1) fresh_locals) as [st|] eqn:Hs;
    [|vm_compute in Hs; discriminate].
  specialize (H ex1_fig st ltac:(vm_compute; reflexivity) eq_refl
                "2000-02 to 2000-03"%string).
  vm_compute in Hs. injection Hs as <-.
  cbn in H. apply H. left. reflexivity.
Qed.

(** * Further properties of the code *)

(** ** Errors of the segmentation loop on any table *)

Lemma run_loop_raised (df : list Row) (l : list nat) (e : PyError) :
  fold_left (fun acc i => s <- acc ;; loop_body df (Z.of_nat i) s) l (Raise e)
  = Raise e.
Proof. induction l as [|a l IH]; [reflexivity|exact IH]. Qed.

Lemma member_branch_Bound (df : list Row) (k : nat) (r : Row) (st : Locals) :
  nth_error df k = Some r ->
  gt0 (empl_mth_gain r) = true ->
  Bound df k st ->
  exists st', member_branch df (Z.of_nat k) r st = Ok st' /\
              Bound df (S k) st'.
Proof.
  intros Hr Hg (H0 & Hb & _). unfold member_branch.
  set (st1 := if strk_mths st =? 0 then open_streak _ r st else st).
  assert (H1 : 0 <= strk_mths st1 /\
               exists jv sdf s, j st1 = Some jv /\ strk_df st1 = Some sdf /\
                                strk_start_mth_str st1 = Some s).
  { subst st1. destruct (Z.eqb_spec (strk_mths st) 0) as [E|E].
    - cbn. split; [lia|]. do 3 eexists. repeat split.
    - split; [assumption|]. destruct (Hb E) as (A & B & C).
      destruct (j st), (strk_df st), (strk_start_mth_str st);
        try congruence. do 3 eexists. repeat split. }
  clearbody st1. destruct H1 as (Hm & jv & sdf & s & Ej & Ed & Es).
  rewrite Ej, Ed. cbn [read_var bind].
  destruct (Z.of_nat k =? Z.of_nat (length df) - 1).
  - rewrite (loc_nth _ _ _ Hr). cbn [bind set_running strk_start_mth_str].
    rewrite Es. cbn [read_var bind]. eexists. split; [reflexivity|].
    unfold Bound.
    cbn [with_lists set_running strk_mths j strk_df strk_start_mth_str].
    split; [lia|]. split; [|intros; lia].
    intros _. rewrite Es. repeat split; congruence.
  - eexists. split; [reflexivity|].
    unfold Bound.
    cbn [set_running strk_mths j strk_df strk_start_mth_str].
    split; [lia|]. split; [|intros; lia].
    intros _. rewrite Ej, Es. repeat split; congruence.
Qed.

Lemma loop_body_Bound (df : list Row) (k : nat) (r : Row) (st : Locals) :
  nth_error df k = Some r ->
  (k = 0%nat -> le0 (empl_mth_gain r) = false) ->
  Bound df k st ->
  exists st', loop_body df (Z.of_nat k) st = Ok st' /\ Bound df (S k) st'.
Proof.
  intros Hr Hk0 HB. unfold loop_body. rewrite (loc_nth _ _ _ Hr). cbn [bind].
  assert (Hskip : gt0 (empl_mth_gain r) = false -> Bound df (S k) st).
  { intros Hg. destruct HB as (H0 & Hb & _). split; [assumption|].
    split; [assumption|]. intros k' rp E Hp Hgp. injection E as <-.
    congruence. }
  destruct (gt0 (empl_mth_gain r)) eqn:Hg.
  - apply member_branch_Bound; assumption.
  - destruct (le0 (empl_mth_gain r)) eqn:Hl;
      [|eexists; split; [reflexivity|auto]].
    destruct k as [|k]; [specialize (Hk0 eq_refl); discriminate|].
    destruct (nth_error df k) as [rp|] eqn:Hp.
    2:{ apply nth_error_None in Hp.
        assert (S k < length df)%nat by (apply nth_error_Some; congruence).
        lia. }
    replace (Z.of_nat (S k) - 1) with (Z.of_nat k) by lia.
    rewrite (loc_nth _ _ _ Hp). cbn [bind].
    replace (0 <? Z.of_nat (S k)) with true by (symmetry; apply Z.ltb_lt; lia).
    rewrite andb_true_r.
    destruct (gt0 (empl_mth_gain rp)) eqn:Hgp;
      [|eexists; split; [reflexivity|auto]].
    destruct HB as (H0 & Hb & Hprev).
    destruct (Hb (Hprev k rp eq_refl Hp Hgp)) as (_ & B & C).
    unfold close_branch.
    destruct (strk_df st) as [sdf|]; [|congruence].
    destruct (strk_start_mth_str st) as [s|]; [|congruence].
    cbn [read_var bind].
    replace (Z.of_nat (S k) - 1) with (Z.of_nat k) by lia.
    rewrite (loc_nth _ _ _ Hp). cbn [bind].
    eexists. split; [reflexivity|].
    unfold Bound.
    cbn [with_lists set_running strk_mths j strk_df strk_start_mth_str].
    split; [lia|]. split; [congruence|].
    intros k' rp' E Hp' Hgp'. injection E as <-. congruence.
Qed.

Lemma run_loop_Bound (df : list Row) (prior : Locals) (k : nat) :
  (forall r, nth_error df 0 = Some r -> le0 (empl_mth_gain r) = false) ->
  (k <= length df)%nat ->
  exists st, run_loop df k (init_locals prior) = Ok st /\ Bound df k st.
Proof.
  intros H0. induction k as [|k IH]; intros Hk.
  - exists (init_locals prior). split; [reflexivity|].
    unfold Bound. cbn. repeat split; try lia; congruence.
  - destruct IH as (st & Hrun & HB); [lia|].
    destruct (nth_error df k) as [r|] eqn:Hr.
    2:{ apply nth_error_None in Hr. lia. }
    destruct (loop_body_Bound df k r st Hr) as (st' & Hb & HB');
      [intros ->; auto|assumption|].
    exists st'. rewrite run_loop_S, Hrun. split; assumption.
Qed.

(** X1. On any table, gain-annotated or not, the segmentation block
    raises in one case only: when the gain of the first row is a number
    that is not positive, the [elif] looks up the row before the first one
    and raises a KeyError, because its test of [i > 0] comes last. On every
    other table the block returns; the locals [j], [strk_df] and
    [strk_start_mth_str], which are assigned under an [if] only, are never
    read before they are assigned. *)
Theorem X1_segmentation_errors (df : list Row) (prior : Locals) :
  match df with
  | [] => segmentation df prior = Ok (init_locals prior)
  | r :: _ =>
      if le0 (empl_mth_gain r)
      then segmentation df prior = Raise KeyError
      else exists st, segmentation df prior = Ok st
  end.
Proof.
  destruct df as [|r t]; [reflexivity|].
  destruct (le0 (empl_mth_gain r)) eqn:Hl.
  - unfold segmentation, run_loop. cbn [length seq fold_left bind].
    assert (Hb : loop_body (r :: t) (Z.of_nat 0) (init_locals prior)
                 = Raise KeyError).
    { unfold loop_body. change (loc (r :: t) (Z.of_nat 0)) with (Ok r).
      cbn [bind]. rewrite Hl.
      destruct (empl_mth_gain r) as [g|]; [|discriminate].
      cbn in Hl. apply Z.leb_le in Hl. cbn [gt0].
      replace (0 <? g) with false by (symmetry; apply Z.ltb_ge; lia).
      reflexivity. }
    rewrite Hb. apply run_loop_raised.
  - destruct (run_loop_Bound (r :: t) prior (length (r :: t)))
      as (st & Hrun & _); [|lia|exists st; exact Hrun].
    intros r' E. injection E as <-. exact Hl.
Qed.

(** ** The table that [get_usempl_data] returns *)







(** ** Streaks are the maximal runs of the table *)

Lemma starts_not_positive_app (post : list Row) (r : Row) :
  post <> [] -> starts_not_positive post -> starts_not_positive (post ++ [r]).
Proof. destruct post; [congruence|auto]. Qed.

(** The closed runs are followed by a row, the open run ends the list,
    and both follow a baseline. *)
Lemma seg_positions (l : list Row) :
  starts_not_positive l ->
  Forall (fun run => exists pre b post,
              l = pre ++ b :: run ++ post /\ positive b = false /\
              post <> [] /\ starts_not_positive post)
         (fst (seg l)) /\
  (snd (seg l) <> [] ->
   exists pre b, l = pre ++ b :: snd (seg l) /\ positive b = false) /\
  (snd (seg l) = [] -> l <> [] ->
   exists pre b, l = pre ++ [b] /\ positive b = false).
Proof.
  induction l as [|r l IH] using rev_ind; intros Hs.
  - cbn. split; [constructor|]. split; congruence.
  - assert (Hs' : starts_not_positive l) by (destruct l; [exact I|exact Hs]).
    destruct (IH Hs') as (Hc & Ho & He). clear IH.
    rewrite seg_snoc. destruct (seg l) as [closed open]. cbn [fst snd] in *.
    unfold seg_step. cbn [fst snd].
    assert (Hext : Forall (fun run => exists pre b post,
                      l ++ [r] = pre ++ b :: run ++ post /\
                      positive b = false /\
                      post <> [] /\ starts_not_positive post) closed).
    { eapply Forall_impl; [|exact Hc].
      intros run (pre & b & post & E & Hb & Hp & Hsp).
      exists pre, b, (post ++ [r]). split.
      - rewrite E, <- !app_assoc. cbn. rewrite <- app_assoc. reflexivity.
      - split; [assumption|]. split.
        + destruct post; [congruence|discriminate].
        + apply starts_not_positive_app; assumption. }
    destruct (positive r) eqn:Hp; cbn [fst snd].
    + split; [exact Hext|]. split; [|destruct open; discriminate].
      intros _. destruct open as [|x o].
      * destruct l as [|y l'].
        -- cbn in Hs. congruence.
        -- destruct He as (pre & b & E & Hb); [reflexivity|discriminate|].
           exists pre, b. split; [|assumption].
           rewrite E, <- app_assoc. reflexivity.
      * destruct Ho as (pre & b & E & Hb); [discriminate|].
        exists pre, b. split; [|assumption].
        rewrite E, <- app_assoc. reflexivity.
    + destruct open as [|x o]; cbn [fst snd].
      * split; [exact Hext|]. split; [congruence|].
        intros _ _. exists l, r. split; [reflexivity|assumption].
      * split.
        -- apply Forall_app. split; [exact Hext|].
           constructor; [|constructor].
           destruct Ho as (pre & b & E & Hb); [discriminate|].
           exists pre, b, [r]. split.
           ++ rewrite E, <- app_assoc. reflexivity.
           ++ split; [assumption|]. split; [discriminate|exact Hp].
        -- split; [congruence|].
           intros _ _. exists l, r. split; [reflexivity|assumption].
Qed.

Lemma spec_streaks_maximal (l : list Row) :
  starts_not_positive l -> Forall (maximal_run l) (spec_streaks l).
Proof.
  intros Hs. destruct (seg_positions l Hs) as (Hc & Ho & _).
  destruct (spec_streaks_runs l) as (Hruns & _).
  unfold spec_streaks, close_open in *.
  destruct (seg l) as [closed open]. cbn [fst snd] in *.
  assert (Hcl : forall runs,
             Forall (fun run => run <> [] /\
                                Forall (fun r => positive r = true) run) runs ->
             Forall (fun run => exists pre b post,
                         l = pre ++ b :: run ++ post /\ positive b = false /\
                         post <> [] /\ starts_not_positive post) runs ->
             Forall (maximal_run l) runs).
  { intros runs H1 H2. apply Forall_forall. intros run Hin.
    rewrite Forall_forall in H1, H2.
    destruct (H1 run Hin) as (Hne & Hp).
    destruct (H2 run Hin) as (pre & b & post & E & Hb & _ & Hsp).
    split; [assumption|]. split; [assumption|].
    exists pre, b, post. auto. }
  destruct open as [|x o].
  - apply Hcl; assumption.
  - apply Forall_app in Hruns as (Hr1 & Hr2). apply Forall_app. split.
    + apply Hcl; assumption.
    + constructor; [|constructor].
      inversion Hr2 as [|? ? (Hne & Hp) _]; subst.
      destruct Ho as (pre & b & E & Hb); [discriminate|].
      split; [assumption|]. split; [assumption|].
      exists pre, b, []. rewrite app_nil_r. split; [assumption|].
      split; [assumption|exact I].
Qed.

Lemma get_usempl_data_starts (raw : list (date * option Z)) :
  starts_not_positive (get_usempl_data raw).
Proof.
  pose proof (get_usempl_data_annotated raw) as Hga.
  destruct (get_usempl_data raw) as [|r t]; [exact I|].
  cbn. unfold positive.
  rewrite (proj2 (Hga 0%nat r eq_refl) eq_refl). reflexivity.
Qed.

(** X3. Every streak of the collection is a maximal run of the table: its
    members are rows that stand side by side, all of positive gain; the
    row before them, the baseline, exists and has no positive gain; and
    the row after them, if there is one, has no positive gain. *)
Theorem X3_streaks_are_maximal_runs (raw : list (date * option Z)) :
  exists st,
    segmentation (get_usempl_data raw) fresh_locals = Ok st /\
    Forall (streak_of (get_usempl_data raw)) (strk_df_lst (lists st)).
Proof.
  destruct (segmentation_spec _ fresh_locals (get_usempl_data_annotated raw))
    as (st & Hseg & HL & _).
  exists st. split; [exact Hseg|]. rewrite HL.
  cbn [spec_lists strk_df_lst]. apply Forall_map.
  eapply Forall_impl;
    [|apply spec_streaks_maximal, get_usempl_data_starts].
  intros run Hm. exists run. split; [exact Hm|].
  apply member_obs_finalized.
Qed.


(** ** Later months leave closed streaks alone *)

Lemma dropna_app (a b : list (date * option Z)) :
  dropna (a ++ b) = dropna a ++ dropna b.
Proof.
  induction a as [|[d0 [v|]] a IH]; cbn; [reflexivity| |exact IH].
  rewrite IH. reflexivity.
Qed.

Lemma diff_from_app (p : Z) (t u : list (date * Z)) :
  exists q, diff_from p (t ++ u) = diff_from p t ++ diff_from q u.
Proof.
  revert p. induction t as [|[d1 v1] t IH]; intros p.
  - exists p. reflexivity.
  - destruct (IH v1) as (q & E). exists q. cbn. rewrite E. reflexivity.
Qed.

Lemma get_usempl_data_app (raw more : list (date * option Z)) :
  get_usempl_data raw = [] \/
  exists x, get_usempl_data (raw ++ more) = get_usempl_data raw ++ x.
Proof.
  unfold get_usempl_data. rewrite dropna_app.
  destruct (dropna raw) as [|[d0 v0] t]; [left; reflexivity|right].
  cbn [app with_gain].
  destruct (diff_from_app v0 t (dropna more)) as (q & E).
  exists (diff_from q (dropna more)). rewrite E. reflexivity.
Qed.

Lemma seg_step_keeps (l : list Row) (acc : list (list Row) * list Row) :
  exists rest, fst (fold_left seg_step l acc) = fst acc ++ rest.
Proof.
  revert acc. induction l as [|r l IH]; intros acc.
  - exists []. cbn. rewrite app_nil_r. reflexivity.
  - cbn [fold_left]. destruct (IH (seg_step acc r)) as (rest & E).
    rewrite E. unfold seg_step.
    destruct (positive r); [exists rest; reflexivity|].
    destruct (snd acc) as [|x o]; [exists rest; reflexivity|].
    exists ([x :: o] ++ rest). cbn [fst]. rewrite <- app_assoc. reflexivity.
Qed.

Lemma spec_streaks_app (l1 l2 : list Row) :
  exists rest, spec_streaks (l1 ++ l2) = fst (seg l1) ++ rest.
Proof.
  unfold spec_streaks, seg. rewrite fold_left_app.
  destruct (seg_step_keeps l2 (fold_left seg_step l1 ([], []))) as (rest & E).
  unfold close_open. rewrite E.
  destruct (snd (fold_left seg_step l2 _)) as [|x o].
  - exists rest. reflexivity.
  - exists (rest ++ [x :: o]). rewrite <- app_assoc. reflexivity.
Qed.

Lemma ends_open_seg (l : list Row) :
  ends_open l = true <-> snd (seg l) <> [].
Proof.
  unfold ends_open, last_row. destruct l as [|r l] using rev_ind.
  - cbn. split; congruence.
  - rewrite length_app. cbn [length].
    replace (length l + 1 - 1)%nat with (length l) by lia.
    rewrite nth_error_app2, Nat.sub_diag by lia. cbn [nth_error].
    rewrite seg_snoc. symmetry. apply seg_step_open.
Qed.

Lemma kept_in_spec {A : Type} (f : list Row -> A) (l1 l2 : list Row) :
  kept_in (ends_open l1) (map f (spec_streaks l1))
          (map f (spec_streaks (l1 ++ l2))).
Proof.
  destruct (spec_streaks_app l1 l2) as (rest & E).
  exists (map f (fst (seg l1))), (map f rest).
  rewrite E, map_app. split; [reflexivity|].
  pose proof (ends_open_seg l1) as Ho.
  unfold spec_streaks, close_open.
  destruct (snd (seg l1)) as [|x o].
  - destruct (ends_open l1); [|reflexivity].
    exfalso. apply (proj1 Ho); reflexivity.
  - replace (ends_open l1) with true
      by (symmetry; apply Ho; discriminate).
    exists (f (x :: o)). rewrite map_app. reflexivity.
Qed.

(** X5. Months added at the end of the series leave the streaks alone that
    the shorter series had closed: the tables and labels of the shorter
    series, without its last streak when the series ended in a month of
    positive gain, are the first tables and labels of the longer one. *)
Theorem X5_later_months_keep_closed_streaks
        (raw more : list (date * option Z)) :
  exists st st',
    segmentation (get_usempl_data raw) fresh_locals = Ok st /\
    segmentation (get_usempl_data (raw ++ more)) fresh_locals = Ok st' /\
    kept_in (ends_open (get_usempl_data raw))
            (strk_df_lst (lists st)) (strk_df_lst (lists st')) /\
    kept_in (ends_open (get_usempl_data raw))
            (strk_label_lst (lists st)) (strk_label_lst (lists st')).
Proof.
  destruct (segmentation_spec _ fresh_locals (get_usempl_data_annotated raw))
    as (st & Hseg & HL & _).
  destruct (segmentation_spec _ fresh_locals
              (get_usempl_data_annotated (raw ++ more)))
    as (st' & Hseg' & HL' & _).
  exists st, st'. split; [exact Hseg|]. split; [exact Hseg'|].
  rewrite HL, HL'. cbn [spec_lists strk_df_lst strk_label_lst].
  destruct (get_usempl_data_app raw more) as [E|(x & E)].
  - rewrite E. cbn. split.
    + exists [], (map finalized_df (spec_streaks (get_usempl_data (raw ++ more)))).
      split; reflexivity.
    + exists [], (map label_of (spec_streaks (get_usempl_data (raw ++ more)))).
      split; reflexivity.
  - rewrite E. split; apply kept_in_spec.
Qed.

(** ** Gains inside a streak *)






(** ** The per-streak extrema *)

Lemma series_max_is (zs : list Z) (T : Z) :
  In T zs -> (forall x, In x zs -> x <= T) ->
  series_max (map Some zs) = Some T.
Proof.
  intros Hin Hle.
  assert (Hne : zs <> []) by (destruct zs; [destruct Hin|discriminate]).
  destruct (series_max_greatest zs Hne) as (m & Hm & Im & Lm).
  rewrite Hm. f_equal. apply In_map_Some in Im.
  specialize (Hle m Im). specialize (Lm T (proj2 (In_map_Some _ _) Hin)). lia.
Qed.

Lemma series_min_is (zs : list Z) (T : Z) :
  In T zs -> (forall x, In x zs -> T <= x) ->
  series_min (map Some zs) = Some T.
Proof.
  intros Hin Hle.
  assert (Hne : zs <> []) by (destruct zs; [destruct Hin|discriminate]).
  destruct (series_min_least zs Hne) as (m & Hm & Im & Lm).
  rewrite Hm. f_equal. apply In_map_Some in Im.
  specialize (Hle m Im). specialize (Lm T (proj2 (In_map_Some _ _) Hin)). lia.
Qed.

(** A column of a closed streak's table whose cells are numbers, with its
    cell on a given row and a fact about all its cells. *)
Lemma column_cells (run : list Row) (c : StrkRow -> option Z)
      (f : nat -> Z) :
  (forall i r, nth_error run i = Some r ->
               c (snd (final_row run i r)) = Some (f i)) ->
  column c (finalized_df run) = map Some (map f (seq 0 (length run))).
Proof.
  intros H. apply nth_error_ext'. intros i. unfold column.
  rewrite !nth_error_map, finalized_nth.
  destruct (nth_error run i) as [r|] eqn:Hr.
  - assert (Hi : (i < length run)%nat) by (apply nth_error_Some; congruence).
    assert (Hs : nth_error (seq 0 (length run)) i = Some i).
    { rewrite nth_error_nth' with (d := 0%nat) by (rewrite length_seq; lia).
      rewrite seq_nth by lia. reflexivity. }
    rewrite Hs. cbn [option_map]. rewrite (H i r Hr). reflexivity.
  - apply nth_error_None in Hr.
    assert (Hs : nth_error (seq 0 (length run)) i = None)
      by (apply nth_error_None; rewrite length_seq; lia).
    rewrite Hs. reflexivity.
Qed.

Lemma gain_sum_nonneg (run : list Row) :
  Forall (fun r => positive r = true) run -> 0 <= gain_sum run.
Proof.
  induction 1 as [|r run Hr _ IH]; [cbn; lia|].
  change (gain_sum (r :: run)) with (gain_of r + gain_sum run).
  pose proof (proj2 (positive_gain r Hr)). lia.
Qed.

Lemma gain_sum_firstn (run : list Row) (i : nat) :
  Forall (fun r => positive r = true) run ->
  gain_sum (firstn i run) <= gain_sum run.
Proof.
  intros Hp. rewrite <- (firstn_skipn i run) at 2.
  assert (Hs : gain_sum (firstn i run ++ skipn i run) =
               gain_sum (firstn i run) + gain_sum (skipn i run)).
  { generalize (skipn i run) as b. generalize (firstn i run) as a.
    induction a as [|x a IH]; intros b; [reflexivity|].
    cbn [app]. change (gain_sum (x :: a ++ b)) with (gain_of x + gain_sum (a ++ b)).
    change (gain_sum (x :: a)) with (gain_of x + gain_sum a).
    rewrite IH. lia. }
  rewrite Hs.
  assert (0 <= gain_sum (skipn i run)).
  { apply gain_sum_nonneg. apply Forall_forall. intros r Hr.
    rewrite Forall_forall in Hp. apply Hp.
    rewrite <- (firstn_skipn i run). apply in_or_app. right. exact Hr. }
  lia.
Qed.

Lemma In_seq_map (f : nat -> Z) (n i : nat) :
  (i < n)%nat -> In (f i) (map f (seq 0 n)).
Proof. intros H. apply in_map, in_seq. lia. Qed.

Lemma extrema_of_run (run : list Row) :
  run <> [] -> Forall (fun r => positive r = true) run ->
  series_min (column col_strk_cum (finalized_df run)) =
    first_gain (finalized_df run) /\
  series_max (column col_strk_cum (finalized_df run)) =
    streak_total (finalized_df run) /\
  series_min (column col_strk_mths (finalized_df run)) = Some 1 /\
  series_max (column col_strk_mths (finalized_df run)) =
    streak_length (finalized_df run).
Proof.
  intros Hne Hp.
  assert (Hlen : (0 < length run)%nat) by (destruct run; [congruence|cbn; lia]).
  unfold first_gain, streak_total, streak_length.
  rewrite finalized_nth, finalized_length.
  destruct run as [|r0 t] eqn:Erun; [congruence|]. rewrite <- Erun in *.
  assert (H0 : nth_error run 0 = Some r0) by (rewrite Erun; reflexivity).
  rewrite H0. cbn [option_map final_row snd col_empl_mth_gain col_strk_cum_tot].
  assert (Hr0 : positive r0 = true).
  { rewrite Forall_forall in Hp. apply Hp. rewrite Erun. left. reflexivity. }
  rewrite (column_cells run col_strk_cum
             (fun i => gain_sum (firstn (S i) run))) by reflexivity.
  rewrite (column_cells run col_strk_mths (fun i => Z.of_nat i + 1))
    by reflexivity.
  assert (Hfirst : gain_sum (firstn 1 run) = gain_of r0).
  { rewrite Erun. cbn. lia. }
  split; [|split; [|split]].
  - rewrite (proj1 (positive_gain r0 Hr0)). apply series_min_is.
    + rewrite <- Hfirst.
      apply (In_seq_map (fun i => gain_sum (firstn (S i) run))). exact Hlen.
    + intros x Hx. apply in_map_iff in Hx as (i & <- & Hi).
      rewrite Erun. cbn [firstn].
      change (gain_sum (r0 :: firstn i t))
        with (gain_of r0 + gain_sum (firstn i t)).
      assert (0 <= gain_sum (firstn i t)); [|lia].
      apply gain_sum_nonneg. apply Forall_forall. intros r Hr.
      rewrite Forall_forall in Hp. apply Hp. rewrite Erun. right.
      rewrite <- (firstn_skipn i t). apply in_or_app. left. exact Hr.
  - apply series_max_is.
    + rewrite <- (firstn_all run) at 1.
      replace (length run) with (S (length run - 1)) at 1 by lia.
      apply (In_seq_map (fun i => gain_sum (firstn (S i) run))). lia.
    + intros x Hx. apply in_map_iff in Hx as (i & <- & Hi).
      apply gain_sum_firstn. exact Hp.
  - apply series_min_is.
    + apply (In_seq_map (fun i => Z.of_nat i + 1) (length run) 0). exact Hlen.
    + intros x Hx. apply in_map_iff in Hx as (i & <- & Hi). lia.
  - apply series_max_is.
    + replace (Z.of_nat (length run)) with (Z.of_nat (length run - 1) + 1)
        by lia.
      apply (In_seq_map (fun i => Z.of_nat i + 1)). lia.
    + intros x Hx. apply in_map_iff in Hx as (i & <- & Hi).
      apply in_seq in Hi. lia.
Qed.

Lemma per_streak_lists (runs : list (list Row)) :
  Forall (fun run => run <> [] /\ Forall (fun r => positive r = true) run)
         runs ->
  min_cum_val_lst (spec_lists runs) =
    map first_gain (strk_df_lst (spec_lists runs)) /\
  max_cum_val_lst (spec_lists runs) =
    map streak_total (strk_df_lst (spec_lists runs)) /\
  min_mth_val_lst (spec_lists runs) =
    map (fun _ => Some 1) (strk_df_lst (spec_lists runs)) /\
  max_mth_val_lst (spec_lists runs) =
    map streak_length (strk_df_lst (spec_lists runs)).
Proof.
  intros H. rewrite Forall_forall in H.
  cbn [spec_lists min_cum_val_lst max_cum_val_lst min_mth_val_lst
       max_mth_val_lst strk_df_lst].
  rewrite !map_map.
  repeat split; apply map_ext_in; intros run Hin;
    destruct (H run Hin) as (Hne & Hp);
    apply (extrema_of_run run Hne Hp).
Qed.

(** X7. The four per-streak lists that scale the chart and decide the
    colours hold, for each streak, the gain of its first month (least
    running cumulative gain), its total gain (greatest running cumulative
    gain), 1 (least month count) and its length (greatest month count);
    so the test of line 370 highlights a streak if and only if its total
    gain exceeds 10,000 or its length exceeds 40. The column data sources
    are the streak tables, and every list has [strk_num] entries. *)
Theorem X7_per_streak_lists (raw : list (date * option Z)) :
  exists st,
    segmentation (get_usempl_data raw) fresh_locals = Ok st /\
    min_cum_val_lst (lists st) = map first_gain (strk_df_lst (lists st)) /\
    max_cum_val_lst (lists st) = map streak_total (strk_df_lst (lists st)) /\
    min_mth_val_lst (lists st) =
      map (fun _ => Some 1) (strk_df_lst (lists st)) /\
    max_mth_val_lst (lists st) = map streak_length (strk_df_lst (lists st)) /\
    map e_highlighted (entries (lists st)) =
      map (fun sdf => highlighted (streak_total sdf) (streak_length sdf))
          (strk_df_lst (lists st)) /\
    strk_cds_lst (lists st) = strk_df_lst (lists st) /\
    strk_num st = Z.of_nat (length (strk_df_lst (lists st))) /\
    length (strk_label_lst (lists st)) = length (strk_df_lst (lists st)) /\
    length (min_gain_val_lst (lists st)) = length (strk_df_lst (lists st)) /\
    length (max_gain_val_lst (lists st)) = length (strk_df_lst (lists st)).
Proof.
  destruct (segmentation_spec _ fresh_locals (get_usempl_data_annotated raw))
    as (st & Hseg & HL & Hn).
  exists st. split; [exact Hseg|].
  destruct (spec_streaks_runs (get_usempl_data raw)) as (Hruns & _).
  destruct (per_streak_lists _ Hruns) as (E1 & E2 & E3 & E4).
  rewrite HL, Hn, entries_spec.
  split; [exact E1|]. split; [exact E2|]. split; [exact E3|].
  split; [exact E4|].
  cbn [spec_lists strk_df_lst strk_cds_lst strk_label_lst min_gain_val_lst
       max_gain_val_lst].
  rewrite !length_map, !map_map.
  repeat split; try reflexivity.
  apply map_ext_in. intros run Hin. rewrite Forall_forall in Hruns.
  destruct (Hruns run Hin) as (Hne & Hp).
  destruct (extrema_of_run run Hne Hp) as (_ & A & _ & B).
  cbn [entry_of e_highlighted]. rewrite A, B. reflexivity.
Qed.

(** ** How a call of [usempl_streaks] ends *)



(** ** The ends of the axes *)

Lemma all_numbers (l : list (option Z)) :
  Forall (fun o => o <> None) l -> exists zs, l = map Some zs.
Proof.
  induction 1 as [|o l Ho _ (zs & ->)]; [exists []; reflexivity|].
  destruct o as [z|]; [|congruence]. exists (z :: zs). reflexivity.
Qed.

Lemma py_max_greatest (l : list (option Z)) (m : option Z) :
  Forall (fun o => o <> None) l -> py_max l = Ok m ->
  exists v, m = Some v /\ greatest v l.
Proof.
  intros Hl Hm. destruct (all_numbers l Hl) as (zs & ->).
  destruct zs as [|z zs]; [discriminate|].
  rewrite py_max_Some in Hm. injection Hm as <-.
  eexists. split; [reflexivity|].
  destruct (fold_max_spec zs z) as (Hin & Hle). split.
  - apply In_map_Some. exact Hin.
  - intros x Hx. apply Hle, In_map_Some, Hx.
Qed.

Lemma py_min_least (l : list (option Z)) (m : option Z) :
  Forall (fun o => o <> None) l -> py_min l = Ok m ->
  exists v, m = Some v /\ least v l.
Proof.
  intros Hl Hm. destruct (all_numbers l Hl) as (zs & ->).
  destruct zs as [|z zs]; [discriminate|].
  rewrite py_min_Some in Hm. injection Hm as <-.
  eexists. split; [reflexivity|].
  destruct (fold_min_spec zs z) as (Hin & Hle). split.
  - apply In_map_Some. exact Hin.
  - intros x Hx. apply Hle, In_map_Some, Hx.
Qed.

Lemma first_gain_total_numbers (run : list Row) :
  run <> [] -> Forall (fun r => positive r = true) run ->
  first_gain (finalized_df run) <> None /\
  streak_total (finalized_df run) <> None.
Proof.
  intros Hne Hp. unfold first_gain, streak_total. rewrite finalized_nth.
  destruct run as [|r t]; [congruence|].
  cbn [nth_error option_map final_row snd col_empl_mth_gain col_strk_cum_tot].
  inversion Hp as [|? ? Hr _]; subst.
  rewrite (proj1 (positive_gain r Hr)). split; discriminate.
Qed.

(** X9. On the chart that [usempl_streaks] returns, the cumulative-gain
    axis is scaled from the least first-month gain of any streak to the
    greatest total gain of any streak, and the month axis from 1 to the
    length of the longest streak; the title names the year of the first
    row of the table. *)
Theorem X9_ends_of_the_axes (raw : list (date * option Z)) (fig : Figure) :
  usempl_streaks raw = Ok fig ->
  exists st r0 lo hi n,
    segmentation (get_usempl_data raw) fresh_locals = Ok st /\
    nth_error (get_usempl_data raw) 0 = Some r0 /\
    fig_title fig =
      ("Consecutive US monthly employment gain streaks since "
         ++ pad4 (year (Date r0)))%string /\
    min_cum_val fig = Some lo /\
    least lo (map first_gain (strk_df_lst (lists st))) /\
    max_cum_val fig = Some hi /\
    greatest hi (map streak_total (strk_df_lst (lists st))) /\
    min_mth_val fig = Some 1 /\
    max_mth_val fig = Some n /\
    greatest n (map streak_length (strk_df_lst (lists st))).
Proof.
  intros H.
  apply usempl_streaks_Ok in H
    as (r0 & st & lo & hi & mlo & mhi & dr & rs &
        H0 & Hs & H1 & H2 & H3 & H4 & _ & ->).
  destruct (segmentation_spec _ fresh_locals (get_usempl_data_annotated raw))
    as (st' & Hs' & HL & _).
  rewrite Hs in Hs'. injection Hs' as <-.
  destruct (spec_streaks_runs (get_usempl_data raw)) as (Hruns & _).
  destruct (per_streak_lists _ Hruns) as (E1 & E2 & E3 & E4).
  rewrite <- HL in E1, E2, E3, E4.
  rewrite E1 in H1. rewrite E2 in H2. rewrite E3 in H3. rewrite E4 in H4.
  assert (Hnum : forall f : StrkDf -> option Z,
             (forall run, run <> [] ->
                          Forall (fun r => positive r = true) run ->
                          f (finalized_df run) <> None) ->
             Forall (fun o => o <> None) (map f (strk_df_lst (lists st)))).
  { intros f Hf. rewrite HL. cbn [spec_lists strk_df_lst].
    rewrite map_map. apply Forall_map.
    eapply Forall_impl; [|exact Hruns]. intros run [Hne Hp]. auto. }
  apply py_min_least in H1 as (lo' & -> & Llo).
  2:{ apply Hnum. intros run Hne Hp.
      apply (first_gain_total_numbers run Hne Hp). }
  apply py_max_greatest in H2 as (hi' & -> & Lhi).
  2:{ apply Hnum. intros run Hne Hp.
      apply (first_gain_total_numbers run Hne Hp). }
  apply py_min_least in H3 as (one & -> & Lone).
  2:{ apply Forall_map, Forall_forall. intros x _. discriminate. }
  apply py_max_greatest in H4 as (n & -> & Ln).
  2:{ apply Forall_map, Forall_forall. intros x _. discriminate. }
  assert (one = 1).
  { destruct Lone as (Hin & _). apply in_map_iff in Hin as (x & Hx & _).
    congruence. }
  subst one.
  exists st, r0, lo', hi', n. split; [exact Hs|]. split.
  { unfold loc in H0. cbn in H0.
    destruct (get_usempl_data raw) as [|r t]; [discriminate|].
    cbn in *. congruence. }
  cbn [fig_title min_cum_val max_cum_val min_mth_val max_mth_val].
  repeat split; try assumption; try apply Llo; try apply Lhi; try apply Ln.
Qed.

Lemma X9_ends_of_the_axes_witness :
  exists st r0 lo hi n,
    segmentation (get_usempl_data ex1) fresh_locals = Ok st /\
    nth_error (get_usempl_data ex1) 0 = Some r0 /\
    fig_title ex1_fig =
      ("Consecutive US monthly employment gain streaks since "
         ++ pad4 (year (Date r0)))%string /\
    min_cum_val ex1_fig = Some lo /\
    least lo (map first_gain (strk_df_lst (lists st))) /\
    max_cum_val ex1_fig = Some hi /\
    greatest hi (map streak_total (strk_df_lst (lists st))) /\
    min_mth_val ex1_fig = Some 1 /\
    max_mth_val ex1_fig = Some n /\
    greatest n (map streak_length (strk_df_lst (lists st))).
Proof.
  apply (X9_ends_of_the_axes ex1 ex1_fig). vm_compute. reflexivity.
Defined.

(** ** How many streaks a table can hold *)

Lemma filter_split_length {A : Type} (p : A -> bool) (l : list A) :
  (length (filter p l) + length (filter (fun x => negb (p x)) l))%nat
  = length l.
Proof.
  induction l as [|a l IH]; [reflexivity|].
  cbn [filter]. destruct (p a); cbn [negb length]; lia.
Qed.

Lemma seg_closed_count (l : list Row) :
  starts_not_positive l -> l <> [] ->
  (length (fst (seg l)) + 1 <=
   length (filter (fun r => negb (positive r)) l))%nat.
Proof.
  induction l as [|r l IH] using rev_ind; intros Hs Hne; [congruence|].
  rewrite seg_snoc, filter_app, length_app.
  destruct l as [|x l'].
  - cbn in Hs. cbn. unfold seg_step. rewrite Hs. cbn. lia.
  - assert (IH' := IH Hs ltac:(discriminate)).
    remember (x :: l') as l eqn:El. clear El IH Hs Hne.
    destruct (seg l) as [closed open]. cbn [fst snd] in *.
    unfold seg_step. cbn [fst snd filter].
    destruct (positive r); cbn [negb length fst].
    + lia.
    + destruct open; cbn [fst]; [lia|]. rewrite length_app. cbn. lia.
Qed.

Lemma runs_count (runs : list (list Row)) :
  Forall (fun run => run <> []) runs ->
  (length runs <= length (concat runs))%nat.
Proof.
  induction 1 as [|run runs Hr _ IH]; [reflexivity|].
  cbn [concat length]. rewrite length_app.
  destruct run; [congruence|]. cbn. lia.
Qed.

Lemma spec_streaks_count (l : list Row) :
  starts_not_positive l ->
  (length (spec_streaks l) <= length (filter positive l))%nat /\
  (2 * length (spec_streaks l) <= length l)%nat.
Proof.
  intros Hs.
  destruct (spec_streaks_runs l) as (Hruns & Hcat).
  assert (H1 : (length (spec_streaks l) <= length (filter positive l))%nat).
  { rewrite <- Hcat. apply runs_count.
    eapply Forall_impl; [|exact Hruns]. intros run [Hne _]. exact Hne. }
  split; [exact H1|].
  destruct l as [|x l']; [cbn; lia|].
  pose proof (seg_closed_count (x :: l') Hs ltac:(discriminate)) as H2.
  pose proof (filter_split_length positive (x :: l')) as H3.
  assert (H4 : (length (spec_streaks (x :: l'))
                <= length (fst (seg (x :: l'))) + 1)%nat).
  { unfold spec_streaks, close_open.
    destruct (snd (seg (x :: l'))); [lia|]. rewrite length_app. cbn. lia. }
  lia.
Qed.

(** X10. A streak needs a month of positive gain and, before it, a month
    without one: the number of streaks is at most the number of months of
    positive gain and at most half the number of rows. A table of fewer
    than 34 rows therefore never brings [usempl_streaks] to the IndexError
    of the palette look-up. *)
Theorem X10_number_of_streaks (raw : list (date * option Z)) :
  exists st,
    segmentation (get_usempl_data raw) fresh_locals = Ok st /\
    strk_num st <=
      Z.of_nat (length (filter positive (get_usempl_data raw))) /\
    2 * strk_num st <= Z.of_nat (length (get_usempl_data raw)) /\
    ((length (get_usempl_data raw) < 34)%nat ->
     usempl_streaks raw <> Raise IndexError).
Proof.
  destruct (segmentation_spec _ fresh_locals (get_usempl_data_annotated raw))
    as (st & Hseg & HL & Hn).
  exists st. split; [exact Hseg|].
  destruct (spec_streaks_count _ (get_usempl_data_starts raw)) as (C1 & C2).
  rewrite Hn. split; [lia|]. split; [lia|].
  intros Hlen.
  destruct (spec_streaks (get_usempl_data raw)) as [|run runs] eqn:Hs.
  - unfold usempl_streaks.
    destruct (get_usempl_data raw) as [|r0 t] eqn:Hdf; [discriminate|].
    change (loc (r0 :: t) 0) with (Ok r0). cbn [bind].
    rewrite Hseg. cbn [bind]. rewrite HL. discriminate.
  - rewrite <- Hs in *.
    assert (Hne : spec_streaks (get_usempl_data raw) <> [])
      by (rewrite Hs; discriminate).
    destruct (usempl_streaks_render raw st Hseg Hne)
      as (title & lo & hi & n & Hfig).
    rewrite Hfig, Hn, HL, render_loop_spec.
    assert (Hc : (count_highlighted
                    (map entry_of (spec_streaks (get_usempl_data raw)))
                  <= 16)%nat).
    { unfold count_highlighted.
      pose proof (filter_split_length e_highlighted
                    (map entry_of (spec_streaks (get_usempl_data raw)))) as Hf.
      rewrite length_map in Hf. lia. }
    apply Nat.leb_le in Hc. rewrite Hc. discriminate.
Qed.

(** ** The data files *)

Lemma string_length_append (s t : string) :
  String.length (s ++ t) = (String.length s + String.length t)%nat.
Proof. induction s as [|c s IH]; cbn; [|rewrite IH]; reflexivity. Qed.

Lemma strftime_Ymd_length (d : date) : String.length (strftime_Ymd d) = 10%nat.
Proof. reflexivity. Qed.

Lemma filenames_differ (d1 d2 : date) :
  String.eqb (download_filename (strftime_Ymd d2))
             (local_filename (strftime_Ymd d1)) = false.
Proof.
  apply String.eqb_neq. intros E.
  apply (f_equal String.length) in E.
  unfold download_filename, local_filename in E.
  rewrite !string_length_append, !strftime_Ymd_length in E.
  cbn in E. discriminate.
Qed.

(** X11. The file that a download saves is never the file that a call
    without download reads: the first is named [usempl_<date>_streaks.csv]
    and the second [usempl_<date>.csv]. So, whatever the two dates, a call
    without download finds in the data directory what it would have found
    before the download, while the series handed on by the download is the
    one found under the download's own name. With the annual figures asked
    for and their file missing, the download stops after it has saved the
    series as downloaded. *)
Theorem X11_download_is_not_read_back
        (A : Type) (merge : A -> A -> A) (d1 d2 : date)
        (include_annual_1919 : bool) (usempl_df : A)
        (data_dir : list (string * A)) :
  let after := save_download merge (strftime_Ymd d2) include_annual_1919
                             usempl_df data_dir in
  load_local (strftime_Ymd d1) (fst after)
    = load_local (strftime_Ymd d1) data_dir /\
  (forall handed_on, snd after = Some handed_on ->
     read_csv (download_filename (strftime_Ymd d2)) (fst after)
       = Some handed_on) /\
  (include_annual_1919 = true -> read_csv annual_filename data_dir = None ->
   snd after = None /\
   read_csv (download_filename (strftime_Ymd d2)) (fst after)
     = Some usempl_df).
Proof.
  assert (Hann : String.eqb (download_filename (strftime_Ymd d2))
                            annual_filename = false).
  { apply String.eqb_neq. intros E. apply (f_equal String.length) in E.
    unfold download_filename in E.
    rewrite !string_length_append, strftime_Ymd_length in E.
    cbn in E. discriminate. }
  unfold load_local, save_download, to_csv. cbv zeta.
  destruct include_annual_1919; cbn [read_csv fst snd]; rewrite ?Hann.
  - destruct (read_csv annual_filename data_dir) as [ann|] eqn:Ea;
      cbn [read_csv fst snd];
      rewrite ?filenames_differ, ?String.eqb_refl.
    + split; [reflexivity|]. split; [|discriminate].
      intros t E. congruence.
    + split; [reflexivity|]. split; [discriminate|].
      intros _ _. split; reflexivity.
  - rewrite ?filenames_differ, ?String.eqb_refl.
    split; [reflexivity|]. split; [|discriminate].
    intros t E. congruence.
Qed.
